(** * The study-buddy worker: intent router and session state machine

    A shallow embedding of [src/index.js] of the Cloudflare worker
    (string helpers, the regular expressions of the router, the six
    handlers, the chat endpoint and the KV read/write), followed by the
    properties of the router and of the state machine. *)

From Stdlib Require Import NArith ZArith Ascii String Bool Lia DecimalString.
From Stdlib Require DecimalZ.
From stdpp Require Import base option list strings gmap.

Local Open Scope N_scope.

(** ** JavaScript strings

    A JavaScript string is a sequence of UTF-16 code units; the regular
    expressions of the worker carry no [u] flag, so they too work on code
    units. *)

Module JsString.

Abbreviation jsstring := (list N).

(** An ASCII literal of the source, as code units. *)
Definition u (s : string) : jsstring := map N_of_ascii (list_ascii_of_string s).

Definition in_range (lo hi c : N) : bool := (lo <=? c) && (c <=? hi).

Definition is_upper (c : N) : bool := in_range 65 90 c.
Definition is_lower (c : N) : bool := in_range 97 122 c.
Definition is_digit (c : N) : bool := in_range 48 57 c.

(** [\w] without the [u] flag: [A-Za-z0-9_]. *)
Definition is_word (c : N) : bool :=
  is_upper c || is_lower c || is_digit c || (c =? 95).

(** WhiteSpace and LineTerminator code points, what [String.prototype.trim]
    strips: TAB, LF, VT, FF, CR, SP, NBSP, U+1680, U+2000..U+200A, U+2028,
    U+2029, U+202F, U+205F, U+3000, U+FEFF. *)
Definition is_space (c : N) : bool :=
  in_range 9 13 c || (c =? 32) || (c =? 160) || (c =? 5760)
  || in_range 8192 8202 c || (c =? 8232) || (c =? 8233) || (c =? 8239)
  || (c =? 8287) || (c =? 12288) || (c =? 65279).

Fixpoint drop_while {A} (p : A -> bool) (l : list A) : list A :=
  match l with
  | [] => []
  | x :: l' => if p x then drop_while p l' else l
  end.

Definition trimStart (s : jsstring) : jsstring := drop_while is_space s.
Definition trimEnd (s : jsstring) : jsstring := rev (drop_while is_space (rev s)).
Definition trim (s : jsstring) : jsstring := trimEnd (trimStart s).

(** [String.prototype.toLowerCase], one code unit at a time.  The ASCII
    capitals go to their small letters; the only code units outside ASCII
    whose lower case contains an ASCII letter are U+212A KELVIN SIGN (to
    [k]) and U+0130 (to [i] followed by U+0307).  Every other code unit
    outside ASCII is mapped by Unicode to code units outside ASCII; the
    patterns of the worker name ASCII characters only and cannot tell these
    apart, so they are kept as they are. *)
Definition lower_unit (c : N) : jsstring :=
  if is_upper c then [c + 32]
  else if c =? 8490 then [107]
  else if c =? 304 then [105; 775]
  else [c].

Definition toLowerCase (s : jsstring) : jsstring := flat_map lower_unit s.

(** [String(n)] for an integer [n]. *)
Definition String_of_Z (n : Z) : jsstring := u (NilEmpty.string_of_int (Z.to_int n)).

(** [a.join(sep)] for an array of strings. *)
Fixpoint join (sep : jsstring) (parts : list jsstring) : jsstring :=
  match parts with
  | [] => []
  | [p] => p
  | p :: rest => p ++ sep ++ join sep rest
  end.

(** [a.slice(-n)]: the last [n] elements (all of them when there are fewer). *)
Definition slice_last {A} (n : nat) (l : list A) : list A :=
  drop (length l - n)%nat l.

End JsString.
Export JsString.

(** ** Regular expressions

    The fragment of ECMAScript patterns the worker uses: the assertions
    [\b], [^] and [$], literal characters, character classes, and one group
    of alternatives; the flag [i].  Matching is by backtracking: an
    alternative that matches but whose continuation fails gives way to the
    next one. *)

Module Regex.

Inductive atom :=
| Ch (c : N)
| OneOf (cs : list N).

Inductive node :=
| WordB
| Bol
| Eol
| Group (alts : list (list atom)).

Record regex := { nodes : list node; ignoreCase : bool }.

(** The literal [s] as a sequence of atoms. *)
Definition lit (s : string) : list atom := map Ch (u s).

(** Canonicalize of the specification, without the [u] flag: the upper case
    of the code unit, except that a code unit outside ASCII never becomes
    an ASCII one.  Every comparison in this program has an ASCII character
    of the pattern on one side, for which the ASCII part below is exact. *)
Definition canon (ic : bool) (c : N) : N :=
  if ic && is_lower c then c - 32 else c.

Definition atom_matches (ic : bool) (a : atom) (c : N) : bool :=
  match a with
  | Ch p => canon ic p =? canon ic c
  | OneOf cs => existsb (fun p => canon ic p =? canon ic c) cs
  end.

(** Consume the atoms [p] from the front of [s]; [prev] is the code unit
    before the current position, if any. *)
Fixpoint match_atoms (ic : bool) (p : list atom) (prev : option N) (s : jsstring)
  : option (option N * jsstring) :=
  match p with
  | [] => Some (prev, s)
  | a :: p' =>
      match s with
      | [] => None
      | c :: s' => if atom_matches ic a c then match_atoms ic p' (Some c) s' else None
      end
  end.

Definition is_word_opt (c : option N) : bool :=
  match c with Some c => is_word c | None => false end.

(** [\b]: exactly one of the two neighbours is a word character. *)
Definition word_boundary (prev next : option N) : bool :=
  xorb (is_word_opt prev) (is_word_opt next).

Fixpoint match_here (ic : bool) (re : list node) (prev : option N) (s : jsstring) : bool :=
  match re with
  | [] => true
  | WordB :: re' => word_boundary prev (head s) && match_here ic re' prev s
  | Bol :: re' => (if prev is None then true else false) && match_here ic re' prev s
  | Eol :: re' => (if s is [] then true else false) && match_here ic re' prev s
  | Group alts :: re' =>
      existsb (fun alt =>
                 match match_atoms ic alt prev s with
                 | Some (prev', s') => match_here ic re' prev' s'
                 | None => false
                 end) alts
  end.

(** Try every start position, from the left. *)
Fixpoint search (ic : bool) (re : list node) (prev : option N) (s : jsstring) : bool :=
  match_here ic re prev s
  || match s with
     | [] => false
     | c :: s' => search ic re (Some c) s'
     end.

(** [re.test(s)] for a pattern without the [g] and [y] flags. *)
Definition test (re : regex) (s : jsstring) : bool :=
  search (ignoreCase re) (nodes re) None s.

(** [/\b(a1|a2|...)\b/] *)
Definition words (alts : list (list atom)) (ic : bool) : regex :=
  {| nodes := [WordB; Group alts; WordB]; ignoreCase := ic |}.

End Regex.
Export Regex.


(** ** The data model of the worker *)

Module Worker.

(** The six labels [chooseAction] can return. *)
Inductive Action :=
| analyze_pattern | log_outcome | create_plan | revise_plan | direct_answer | general_chat.

(** A property that may be missing (or [undefined], which reads the same
    and is dropped by [JSON.stringify]), [null], or hold a value. *)
Inductive js (A : Type) :=
| Undefined
| Null
| Val (a : A).
Arguments Undefined {A}.
Arguments Null {A}.
Arguments Val {A} a.

Inductive Role := system | user | assistant.

(** An entry of [recentHistory], and a message given to the model. *)
Record Turn := { role : Role; content : jsstring }.

Record Profile := { prefersShortSentences : bool; weakAreas : list jsstring }.

(** A session object.  [createPlan] writes all six properties; the spread
    of [revisePlan] and [logOutcome] copies whatever properties the
    previous object has, so each may be missing ([None], [Undefined]). *)
Record Session := {
  id : option jsstring;
  timestamp : option Z;
  goal : option jsstring;
  action : option Action;
  plan : option jsstring;
  outcomeNote : js jsstring;
}.

(** The state as [loadStudyState] returns it. *)
Record UserState := {
  profile : Profile;
  recentHistory : list Turn;
  lastSession : option Session;
  sessions : list Session;
  lastAnalysis : js jsstring;
}.

(** The JSON value kept in KV: any property may be missing ([None],
    [Undefined]); [recentHistory] and [sessions] are [None] also when they
    are not arrays. *)
Record Stored := {
  stored_profile : option Profile;
  stored_recentHistory : option (list Turn);
  stored_lastSession : js Session;
  stored_sessions : option (list Session);
  stored_lastAnalysis : js jsstring;
}.

(** What [env.AI.run] resolves to: possibly nothing, else an object whose
    text is under [result] or under [response]. *)
Record AiResult := { result : js jsstring; response : js jsstring }.

(** The bindings of a request: the key-value namespace, the model, the
    clock ([Date_now k] is what the [k]-th call of [Date.now()] in the
    request returns). *)
Record Env := {
  STUDY_STATE_KV : gmap string Stored;
  AI_run : jsstring -> list Turn -> Z -> option AiResult;
  Date_now : nat -> Z;
}.

Inductive JsError := TypeError.

Inductive Result (A : Type) :=
| Ok (a : A)
| Throw (e : JsError).
Arguments Ok {A} a.
Arguments Throw {A} e.

(** What a handler returns. *)
Record Outcome := { reply : jsstring; newState : UserState }.

Definition MODEL : jsstring := u "@cf/meta/llama-3.1-8b-instruct-fast".

(** *** State management *)

Definition defaults : UserState :=
  {| profile := {| prefersShortSentences := true; weakAreas := [] |};
     recentHistory := [];
     lastSession := None;
     sessions := [];
     lastAnalysis := Null |}.

Definition kv_key (userId : string) : string := ("user:" ++ userId)%string.

(** [{...defaults, ...stored, recentHistory: ..., sessions: ...}] *)
Definition loadStudyState (env : Env) (userId : string) : UserState :=
  match STUDY_STATE_KV env !! kv_key userId with
  | None => defaults
  | Some stored =>
      {| profile := default (profile defaults) (stored_profile stored);
         recentHistory := default [] (stored_recentHistory stored);
         lastSession :=
           match stored_lastSession stored with
           | Undefined => lastSession defaults
           | Null => None
           | Val s => Some s
           end;
         sessions := default [] (stored_sessions stored);
         lastAnalysis :=
           match stored_lastAnalysis stored with
           | Undefined => lastAnalysis defaults
           | v => v
           end |}
  end.

(** [JSON.stringify(state)] followed by the parse of the next load: the
    properties of the state, an [undefined] one left out. *)
Definition to_json (state : UserState) : Stored :=
  {| stored_profile := Some (profile state);
     stored_recentHistory := Some (recentHistory state);
     stored_lastSession :=
       match lastSession state with Some s => Val s | None => Null end;
     stored_sessions := Some (sessions state);
     stored_lastAnalysis := lastAnalysis state |}.

Definition set_recentHistory (h : list Turn) (state : UserState) : UserState :=
  {| profile := profile state;
     recentHistory := h;
     lastSession := lastSession state;
     sessions := sessions state;
     lastAnalysis := lastAnalysis state |}.

(** The state after the trimming branch of [saveStudyState]. *)
Definition trimmed (state : UserState) : UserState :=
  if (8 <? length (recentHistory state))%nat
  then set_recentHistory (slice_last 8 (recentHistory state)) state
  else state.

(** [saveStudyState]: the namespace after the [put]. *)
Definition saveStudyState (env : Env) (userId : string) (state : UserState)
  : gmap string Stored :=
  <[kv_key userId := to_json (trimmed state)]> (STUDY_STATE_KV env).

(** The object literal that [/debug/reset] saves; its [recentHistory] is
    empty, so the trimming branch is not taken. *)
Definition reset_object : Stored :=
  {| stored_profile := None;
     stored_recentHistory := Some [];
     stored_lastSession := Null;
     stored_sessions := Some [];
     stored_lastAnalysis := Undefined |}.

(** *** Helpers *)

Definition formatHistory (history : list Turn) : jsstring :=
  match history with
  | [] => []
  | _ =>
      join (u (String "010" EmptyString))
        (map (fun msg =>
                (match role msg with user => u "User" | _ => u "Assistant" end)
                  ++ u ": " ++ content msg)
           history)
  end.

(** [/[?？！]$/]: U+003F, U+FF1F, U+FF01. *)
Definition re_question_end : regex :=
  {| nodes := [Group [[OneOf [63; 65311; 65281]]]; Eol]; ignoreCase := false |}.

Definition planning_words : list string := ["plan"; "schedule"; "session"; "block"]%string.
Definition pronoun_words : list string := ["we"; "I"; "me"; "my"]%string.

Definition isDirectQuestion (message : jsstring) : bool :=
  match message with
  | [] => false
  | _ =>
      let trimmed := trim message in
      if test (words (map lit planning_words) true) trimmed then false
      else test re_question_end trimmed
           && negb (test (words (map lit pronoun_words) true) trimmed)
  end.

(** *** Routing *)

Definition re_analyze : regex :=
  words [lit "analy" ++ [OneOf (u "sz")] ++ lit "e"; lit "pattern"; lit "habit";
         lit "trend"; lit "history"] false.
Definition re_outcome : regex :=
  words (map lit ["finished"; "completed"; "done"; "did it"; "failed"; "stuck";
                  "fell behind"]%string) false.
Definition re_planning : regex :=
  words (map lit ["plan"; "schedule"; "agenda"; "block"; "timetable"; "routine"]%string) false.
Definition re_revision : regex :=
  words (map lit ["change"; "adjust"; "revise"; "modify"; "tweak"; "shorter";
                  "longer"]%string) false.
Definition affirmations : list string :=
  ["ok"; "okay"; "sure"; "fine"; "yes"; "go ahead"; "do it"]%string.
Definition re_affirmation : regex :=
  {| nodes := [Bol; Group (map lit affirmations); Eol]; ignoreCase := false |}.
Definition re_study : regex :=
  words (map lit ["study"; "learn"; "review"; "prep"; "prepare"]%string) false.

(** Truthiness of [state.lastSession]: an object is truthy, [null] is not. *)
Definition truthy {A} (o : option A) : bool := if o is Some _ then true else false.

Definition chooseAction (state : UserState) (message : jsstring) : Action :=
  let text := toLowerCase (match message with [] => [] | _ => message end) in
  if test re_analyze text then analyze_pattern
  else if test re_outcome text && truthy (lastSession state) then log_outcome
  else if test re_planning text then
    (if truthy (lastSession state) then revise_plan else create_plan)
  else if test re_revision text && truthy (lastSession state) then revise_plan
  else if test re_affirmation text then general_chat
  else if test re_study text then create_plan
  else if isDirectQuestion message then direct_answer
  else general_chat.

(** *** Handlers *)

(** The text of a template literal.  A Rocq string cannot hold a double
    quote on its own, so a backquote written here stands for the double
    quote of the source (a template literal holds no backquote). *)
Definition tpl (s : string) : jsstring :=
  map (fun c => if c =? 96 then 34 else c) (u s).

(** [${v}] for a string property that may be missing. *)
Definition interp (v : option jsstring) : jsstring := default (u "undefined") v.

(** [aiResult?.f] *)
Definition opt_chain (f : AiResult -> js jsstring) (aiResult : option AiResult)
  : js jsstring :=
  match aiResult with Some r => f r | None => Undefined end.

(** [v || d] for a string [v]: the empty string, [null] and [undefined]
    are falsy. *)
Definition or_else (v : js jsstring) (d : jsstring) : jsstring :=
  match v with
  | Val (c :: s) => c :: s
  | _ => d
  end.

(** [aiResult?.result || aiResult?.response || fallback] *)
Definition text_or (aiResult : option AiResult) (fallback : jsstring) : jsstring :=
  or_else (opt_chain result aiResult) (or_else (opt_chain response aiResult) fallback).

Definition chat_messages (systemPrompt userContent : jsstring) : list Turn :=
  [ {| role := system; content := systemPrompt |};
    {| role := user; content := userContent |} ].

(** [{...o}] for [o] an object or [null]: the spread of [null] has no
    property. *)
Definition empty_object : Session :=
  {| id := None; timestamp := None; goal := None; action := None; plan := None;
     outcomeNote := Undefined |}.
Definition spread (o : option Session) : Session := default empty_object o.

Definition set_outcomeNote (note : jsstring) (s : Session) : Session :=
  {| id := id s; timestamp := timestamp s; goal := goal s; action := action s;
     plan := plan s; outcomeNote := Val note |}.

(** [{ ...state, lastSession: session, sessions }] *)
Definition set_sessions (session : option Session) (log : list Session)
    (state : UserState) : UserState :=
  {| profile := profile state;
     recentHistory := recentHistory state;
     lastSession := session;
     sessions := log;
     lastAnalysis := lastAnalysis state |}.

(** [{ ...state, lastAnalysis: v }] *)
Definition set_lastAnalysis (v : js jsstring) (state : UserState) : UserState :=
  {| profile := profile state;
     recentHistory := recentHistory state;
     lastSession := lastSession state;
     sessions := sessions state;
     lastAnalysis := v |}.

Definition general_chat_prompt (historyStr message : jsstring) : jsstring :=
  tpl "
You are a study strategy consultant.

CONTEXT (Last few messages):
" ++ historyStr ++ tpl "

CURRENT USER MESSAGE: `" ++ message ++ tpl "`

YOUR GOAL:
- Move the conversation towards creating a concrete study plan.
- Do NOT get stuck in small talk loops.
- If the user has identified a topic (like `C programming` or `Exam`), propose a specific next step.
- If the user answers `ok` or `sure`, interpret that as agreement to your previous suggestion.

EXAMPLES:
- History includes `I want to learn C`. User says `I know Python`. You say: `Great. Since you know Python, we can skip basic loops and focus on Pointers. Shall I create a 1-week schedule?`
".

Definition handleGeneralChat (state : UserState) (message : jsstring) (env : Env)
  : Outcome :=
  let historyStr := formatHistory (recentHistory state) in
  let systemPrompt := general_chat_prompt historyStr message in
  let aiResult := AI_run env MODEL (chat_messages systemPrompt message) 500 in
  let reply := text_or aiResult (u "How can I help you study today?") in
  {| reply := reply; newState := state |}.

Definition answerDirectQuestion (state : UserState) (message : jsstring) (env : Env)
  : Outcome :=
  let systemPrompt :=
    u "Answer the user's factual question directly and concisely (max 3 sentences). Do not offer a plan." in
  let aiResult := AI_run env MODEL (chat_messages systemPrompt message) 300 in
  {| reply := text_or aiResult (u "I don't know."); newState := state |}.

Definition create_plan_prompt (historyStr message : jsstring) : jsstring :=
  tpl "
You are a study planner. Create a concrete, bulleted study block plan.

CONTEXT (Recent Chat - Use this for topic/constraints):
" ++ historyStr ++ tpl "

USER REQUEST: `" ++ message ++ tpl "`

RULES:
1. Infer the topic from the chat history if not explicitly stated in this specific message.
2. If the user mentions a long timeframe (e.g., `1 month`), provide a high-level breakdown AND a detailed plan for the *first* session.
3. Be specific (e.g., `Read Chapter 1`, `Practice 3 exercises`).
4. No fluff.
".

Definition createPlan (state : UserState) (message : jsstring) (env : Env) : Outcome :=
  let historyStr := formatHistory (recentHistory state) in
  let systemPrompt := create_plan_prompt historyStr message in
  let aiResult := AI_run env MODEL (chat_messages systemPrompt message) 2048 in
  let planText := text_or aiResult (u "Could not generate plan.") in
  let session :=
    {| id := Some (String_of_Z (Date_now env 0));
       timestamp := Some (Date_now env 1);
       goal := Some message;
       action := Some create_plan;
       plan := Some planText;
       outcomeNote := Null |} in
  let sessions := sessions state ++ [session] in
  {| reply := planText; newState := set_sessions (Some session) sessions state |}.

Definition revise_plan_prompt (lastPlan : option jsstring) (message : jsstring)
  : jsstring :=
  tpl "
Revise this study plan based on user feedback.
Old Plan: " ++ interp lastPlan ++ tpl "
Feedback: " ++ message ++ tpl "
Output: A new bulleted plan.
".

Definition revisePlan (state : UserState) (message : jsstring) (env : Env) : Outcome :=
  let lastPlan :=
    match lastSession state with
    | Some s => plan s
    | None => Some (u "No active plan.")
    end in
  let systemPrompt := revise_plan_prompt lastPlan message in
  let aiResult := AI_run env MODEL (chat_messages systemPrompt message) 2048 in
  let newPlan := text_or aiResult (u "Could not revise plan.") in
  let old := spread (lastSession state) in
  let session :=
    {| id := Some (String_of_Z (Date_now env 0));
       timestamp := Some (Date_now env 1);
       goal := goal old;
       action := Some revise_plan;
       plan := Some newPlan;
       outcomeNote := outcomeNote old |} in
  {| reply := newPlan;
     newState := set_sessions (Some session) (sessions state ++ [session]) state |}.

Definition log_outcome_prompt (lastPlan : option jsstring) (message : jsstring)
  : jsstring :=
  tpl "
User reported outcome for plan:
" ++ interp lastPlan ++ tpl "
User Report: " ++ message ++ tpl "
Task: Give 1 sentence of feedback and 1 specific tip for next time.
".

(** [a[i].outcomeNote = note]: [a[i]] is [undefined] outside the array,
    and assigning to a property of [undefined] throws. *)
Definition assign_outcomeNote (a : list Session) (i : Z) (note : jsstring)
  : Result (list Session) :=
  if ((0 <=? i) && (i <? Z.of_nat (length a)))%Z
  then Ok (alter (set_outcomeNote note) (Z.to_nat i) a)
  else Throw TypeError.

(** The copy [[...state.sessions]] shares its elements with [state.sessions],
    so the assignment also changes the state that was passed in; that
    state is not read again except for its [recentHistory]. *)
Definition logOutcome (state : UserState) (message : jsstring) (env : Env)
  : Result Outcome :=
  let lastPlan :=
    match lastSession state with
    | Some s => plan s
    | None => Some (u "(No plan)")
    end in
  let systemPrompt := log_outcome_prompt lastPlan message in
  let aiResult := AI_run env MODEL (chat_messages systemPrompt message) 300 in
  let reply := text_or aiResult (u "Logged.") in
  let sessions := sessions state in
  let updated :=
    if (0 <? length sessions)%nat
    then assign_outcomeNote sessions (Z.of_nat (length sessions) - 1) message
    else Ok sessions in
  match updated with
  | Ok sessions =>
      Ok {| reply := reply;
            newState :=
              set_sessions (Some (set_outcomeNote message (spread (lastSession state))))
                sessions state |}
  | Throw e => Throw e
  end.

Section Host.

(** [JSON.stringify] on an array of sessions, a built-in of the host. *)
Variable JSON_stringify : list Session -> jsstring.

Definition analyze_prompt (shown : list Session) (message : jsstring) : jsstring :=
  tpl "
Analyze these study sessions: " ++ JSON_stringify shown ++ tpl "
User Question: " ++ message ++ tpl "
Output: 2 trends and 1 suggestion. Max 100 words.
".

Definition analyzePattern (state : UserState) (message : jsstring) (env : Env)
  : Outcome :=
  let sessions := sessions state in
  let systemPrompt := analyze_prompt (slice_last 10 sessions) message in
  let aiResult :=
    AI_run env MODEL (chat_messages systemPrompt (u "Analyze my patterns")) 500 in
  {| reply := text_or aiResult (u "No data.");
     newState := set_lastAnalysis (opt_chain result aiResult) state |}.

(** *** The entry point *)

Record Request := { method : string; pathname : string; json_message : jsstring }.

Inductive Body :=
| NoBody
| HealthBody
| StateBody (state : UserState)
| ResetBody
| ChatBody (reply : jsstring) (action : Action)
| TextBody (text : string).

Record Response := { status : Z; body : Body }.

(** The dispatch of [fetch] on the chosen action. *)
Definition run_action (action : Action) (state : UserState) (message : jsstring)
    (env : Env) : Result Outcome :=
  match action with
  | direct_answer => Ok (answerDirectQuestion state message env)
  | create_plan => Ok (createPlan state message env)
  | revise_plan => Ok (revisePlan state message env)
  | log_outcome => logOutcome state message env
  | analyze_pattern => Ok (analyzePattern state message env)
  | general_chat => Ok (handleGeneralChat state message env)
  end.

(** The state handed to [saveStudyState] by the chat endpoint. *)
Definition finalState (state : UserState) (message : jsstring) (outcome : Outcome)
  : UserState :=
  let updatedHistory :=
    recentHistory state
      ++ [ {| role := user; content := message |};
           {| role := assistant; content := reply outcome |} ] in
  set_recentHistory updatedHistory (newState outcome).

Definition userId : string := "demo-user".

(** [fetch]: the response, and the namespace once the write given to
    [ctx.waitUntil] has run. *)
Definition fetch (request : Request) (env : Env)
  : Result (Response * gmap string Stored) :=
  if String.eqb (method request) "OPTIONS" then
    Ok ({| status := 204; body := NoBody |}, STUDY_STATE_KV env)
  else if String.eqb (pathname request) "/api/health" then
    Ok ({| status := 200; body := HealthBody |}, STUDY_STATE_KV env)
  else if String.eqb (pathname request) "/debug/state" then
    let state := loadStudyState env userId in
    Ok ({| status := 200; body := StateBody state |}, STUDY_STATE_KV env)
  else if String.eqb (pathname request) "/debug/reset" then
    Ok ({| status := 200; body := ResetBody |},
        <[kv_key userId := reset_object]> (STUDY_STATE_KV env))
  else if String.eqb (pathname request) "/api/chat"
          && String.eqb (method request) "POST" then
    let message := json_message request in
    let state := loadStudyState env userId in
    let action := chooseAction state message in
    match run_action action state message env with
    | Ok outcome =>
        Ok ({| status := 200; body := ChatBody (reply outcome) action |},
            saveStudyState env userId (finalState state message outcome))
    | Throw e => Throw e
    end
  else Ok ({| status := 404; body := TextBody "Not Found" |}, STUDY_STATE_KV env).

End Host.

End Worker.

(** * The specification's words

    Definitions written from the prose of the specification, to be
    compared with the functions of the worker. *)

Module Spec.

(** Letters compared without regard to case. *)
Definition fold_case (c : N) : N := if is_upper c then c + 32 else c.

Definition same_word (a b : jsstring) : Prop := map fold_case a = map fold_case b.

(** A word boundary lies between [before] and [after]. *)
Definition word_edge (before after : jsstring) : Prop :=
  is_word_opt (last before) <> is_word_opt (head after).

(** [s] contains the word [w], case-insensitively, between two word
    boundaries. *)
Definition contains_word (w s : jsstring) : Prop :=
  exists pre mid post,
    s = pre ++ mid ++ post /\ same_word mid w
    /\ word_edge pre (mid ++ post) /\ word_edge (pre ++ mid) post.

(** [s] ends in [?], or in the full-width question or exclamation mark. *)
Definition ends_in_question_mark (s : jsstring) : Prop :=
  exists pre c, s = pre ++ [c] /\ In c [63; 65311; 65281].

Definition direct_question (message : jsstring) : Prop :=
  ends_in_question_mark (trim message)
  /\ (forall w, In w ["plan"; "schedule"; "session"; "block"]%string ->
                ~ contains_word (u w) (trim message))
  /\ (forall w, In w ["we"; "I"; "me"; "my"]%string ->
                ~ contains_word (u w) (trim message)).

(** The fixed reply of each action when the model gives no text. *)
Definition fallback (a : Worker.Action) : jsstring :=
  match a with
  | Worker.create_plan => u "Could not generate plan."
  | Worker.revise_plan => u "Could not revise plan."
  | Worker.log_outcome => u "Logged."
  | Worker.analyze_pattern => u "No data."
  | Worker.direct_answer => u "I don't know."
  | Worker.general_chat => u "How can I help you study today?"
  end.

(** A string property that is missing, [null] or empty. *)
Definition no_text (v : Worker.js jsstring) : Prop :=
  match v with
  | Worker.Val (_ :: _) => False
  | _ => True
  end.

(** The model returned an absent or empty payload. *)
Definition absent_or_empty (r : option Worker.AiResult) : Prop :=
  match r with
  | None => True
  | Some r => no_text (Worker.result r) /\ no_text (Worker.response r)
  end.

(** [text] is the generated text for what the model returned: the text
    under [result] when there is some, else the text under [response]
    when there is some, else the fallback. *)
Definition generated_text (aiResult : option Worker.AiResult)
    (fallback text : jsstring) : Prop :=
  match aiResult with
  | None => text = fallback
  | Some r =>
      match Worker.result r with
      | Worker.Val (c :: s) => text = c :: s
      | _ =>
          match Worker.response r with
          | Worker.Val (c :: s) => text = c :: s
          | _ => text = fallback
          end
      end
  end.

(** The turns of a conversation, oldest first: each message followed by
    its reply. *)
Fixpoint transcript (messages replies : list jsstring) : list Worker.Turn :=
  match messages, replies with
  | m :: messages', r :: replies' =>
      {| Worker.role := Worker.user; Worker.content := m |}
        :: {| Worker.role := Worker.assistant; Worker.content := r |}
        :: transcript messages' replies'
  | _, _ => []
  end.

(** [s] contains the word [w], as written, between two word
    boundaries. *)
Definition has_word (w s : jsstring) : Prop :=
  exists pre post,
    s = pre ++ w ++ post /\ word_edge pre (w ++ post) /\ word_edge (pre ++ w) post.

Definition has_any (ws : list string) (s : jsstring) : Prop :=
  exists w, In w ws /\ has_word (u w) s.

(** Rules tried in order: the first one whose condition holds gives the
    action; [otherwise] is the action when none holds. *)
Fixpoint first_match (rules : list (Prop * Worker.Action))
    (otherwise chosen : Worker.Action) : Prop :=
  match rules with
  | [] => chosen = otherwise
  | (condition, a) :: rest =>
      (condition /\ chosen = a) \/ (~ condition /\ first_match rest otherwise chosen)
  end.

(** The priority order of the router as a rule table, over the
    lower-cased message. *)
Definition routing_rules (state : Worker.UserState) (message : jsstring)
  : list (Prop * Worker.Action) :=
  let text := toLowerCase message in
  let session := Worker.lastSession state <> None in
  let planning := ["plan"; "schedule"; "agenda"; "block"; "timetable"; "routine"]%string in
  [ (has_any ["analyse"; "analyze"; "pattern"; "habit"; "trend"; "history"]%string text,
     Worker.analyze_pattern);
    (has_any ["finished"; "completed"; "done"; "did it"; "failed"; "stuck";
              "fell behind"]%string text /\ session,
     Worker.log_outcome);
    (has_any planning text /\ session, Worker.revise_plan);
    (has_any planning text, Worker.create_plan);
    (has_any ["change"; "adjust"; "revise"; "modify"; "tweak"; "shorter";
              "longer"]%string text /\ session,
     Worker.revise_plan);
    (In text (map u ["ok"; "okay"; "sure"; "fine"; "yes"; "go ahead"; "do it"]%string),
     Worker.general_chat);
    (has_any ["study"; "learn"; "review"; "prep"; "prepare"]%string text,
     Worker.create_plan);
    (direct_question message, Worker.direct_answer) ].

End Spec.

(** * Runs of the worker *)

Module Runs.

Import Worker.

(** [env] with [kv] as its namespace. *)
Definition on_kv (kv : gmap string Stored) (env : Env) : Env :=
  {| STUDY_STATE_KV := kv; AI_run := AI_run env; Date_now := Date_now env |}.

(** A request to the chat endpoint. *)
Definition chat (message : jsstring) : Request :=
  {| method := "POST"; pathname := "/api/chat"; json_message := message |}.

Definition reply_of (response : Response) : jsstring :=
  match body response with
  | ChatBody reply _ => reply
  | _ => []
  end.

Section Host.

Variable JSON_stringify : list Session -> jsstring.

(** The namespaces the worker can bring about: nothing stored yet (the
    next load gives the defaults), then any request, each under any model
    and any clock. *)
Inductive reachable : gmap string Stored -> Prop :=
| reach_empty : reachable ∅
| reach_fetch request env response kv :
    reachable (STUDY_STATE_KV env) ->
    fetch JSON_stringify request env = Ok (response, kv) ->
    reachable kv.

(** A conversation: the messages are sent to the chat endpoint one after
    the other, each under its own model and clock, each on the namespace
    the previous one left.  The result is the last namespace and the turns
    exchanged, oldest first. *)
Fixpoint converse (kv : gmap string Stored) (requests : list (Env * jsstring))
  : Result (gmap string Stored * list Turn) :=
  match requests with
  | [] => Ok (kv, [])
  | (env, message) :: rest =>
      match fetch JSON_stringify (chat message) (on_kv kv env) with
      | Ok (response, kv') =>
          match converse kv' rest with
          | Ok (kv'', turns) =>
              Ok (kv'',
                  {| role := user; content := message |}
                    :: {| role := assistant; content := reply_of response |}
                    :: turns)
          | Throw e => Throw e
          end
      | Throw e => Throw e
      end
  end.

End Host.

(** The state a request starts from, given the namespace. *)
Definition load (kv : gmap string Stored) : UserState :=
  loadStudyState {| STUDY_STATE_KV := kv; AI_run := fun _ _ _ => None;
                    Date_now := fun _ => 0%Z |} userId.

(** *** Sample inputs *)

(** A model that answers [text] under [response], as Workers AI does. *)
Definition answers_in_response (text : jsstring)
  : jsstring -> list Turn -> Z -> option AiResult :=
  fun _ _ _ => Some {| result := Undefined; response := Val text |}.

(** A model that returns nothing. *)
Definition silent : jsstring -> list Turn -> Z -> option AiResult :=
  fun _ _ _ => None.

Definition env_of (kv : gmap string Stored)
    (ai : jsstring -> list Turn -> Z -> option AiResult) : Env :=
  {| STUDY_STATE_KV := kv; AI_run := ai;
     Date_now := fun k => (1700000000000 + Z.of_nat k)%Z |}.

(** A stand-in for [JSON.stringify] that prints the number of sessions. *)
Definition count_sessions (l : list Session) : jsstring :=
  String_of_Z (Z.of_nat (length l)).

Definition binary_search : Session :=
  {| id := Some (u "1699999999000");
     timestamp := Some 1699999999000%Z;
     goal := Some (u "binary search");
     action := Some create_plan;
     plan := Some (u "- read, - practise");
     outcomeNote := Null |}.

Definition planned_state : UserState :=
  set_sessions (Some binary_search) [binary_search] defaults.

(** A state that differs from the defaults in every field but
    [lastSession]. *)
Definition busy_state : UserState :=
  {| profile := {| prefersShortSentences := false; weakAreas := [u "graphs"] |};
     recentHistory := [ {| role := user; content := u "hi" |} ];
     lastSession := None;
     sessions := [ empty_object ];
     lastAnalysis := Val (u "late nights") |}.

(** The action a response reports, if it is a chat response. *)
Definition action_of (response : Response) : option Action :=
  match body response with
  | ChatBody _ a => Some a
  | _ => None
  end.

(** The requests of the test script of the repository: a reset, then four
    messages. *)
Definition reset_request : Request :=
  {| method := "GET"; pathname := "/debug/reset"; json_message := [] |}.
Definition script_create : jsstring := u "I have 60 minutes to study binary search.".
Definition script_revise : jsstring := u "Make the plan faster and more practical.".
Definition script_report : jsstring :=
  u "I got most of it done but slowed down at the end.".
Definition script_analyze : jsstring := u "Analyze my study habits so far.".

(** A record stored with a session and without a log, and the state
    [loadStudyState] makes of it. *)
Definition legacy_store : gmap string Stored :=
  <[kv_key userId :=
      {| stored_profile := None;
         stored_recentHistory := None;
         stored_lastSession := Val binary_search;
         stored_sessions := None;
         stored_lastAnalysis := Undefined |}]> ∅.

Definition legacy_state : UserState := load legacy_store.

(** A namespace that holds a state with an analysis. *)
Definition analysed_store : gmap string Stored :=
  <[kv_key userId :=
      to_json (set_lastAnalysis (Val (u "You study late.")) planned_state)]> ∅.

(** The namespace after a first request for a plan. *)
Definition after_first_plan : gmap string Stored :=
  match fetch count_sessions (chat (u "I want to study graphs"))
          (env_of ∅ (answers_in_response (u "- read chapter 1")))
  with
  | Ok (_, kv) => kv
  | Throw _ => ∅
  end.

End Runs.


(** * Vocabulary of the proofs *)

Module Vocabulary.

Import Worker.

(** An atom that only matches word characters. *)
Definition wordy_atom (a : atom) : bool :=
  match a with
  | Ch p => is_word p
  | OneOf cs => forallb is_word cs
  end.

(** An alternative that begins and ends with such an atom. *)
Definition wordy_alt (alt : list atom) : bool :=
  match alt, last alt with
  | a :: _, Some b => wordy_atom a && wordy_atom b
  | _, _ => false
  end.

(** A string without word characters, and one of white space only. *)
Definition nonword (s : jsstring) : Prop := Forall (fun c => is_word c = false) s.
Definition spaces (s : jsstring) : Prop := Forall (fun c => is_space c = true) s.

(** What [match_here] does at [Group alts; WordB] for one alternative. *)
Definition alt_then_boundary (ic : bool) (prev : option N) (s : jsstring)
    (alt : list atom) : bool :=
  match match_atoms ic alt prev s with
  | Some (prev', s') => word_boundary prev' (head s')
  | None => false
  end.

(** The class of [/[?？！]$/]. *)
Definition is_question_end (c : N) : bool :=
  existsb (fun p => p =? c) [63; 65311; 65281].

(** The code unit before a position: the last of what was read, or the
    one before that. *)
Definition last_or (prev : option N) (s : jsstring) : option N :=
  match last s with Some c => Some c | None => prev end.

(** [lastSession], when there is one, is the last element of the log. *)
Definition consistent (state : UserState) : Prop :=
  forall current, lastSession state = Some current ->
                  last (sessions state) = Some current.

(** What the next load makes of a state that was saved: the history cut
    by [saveStudyState], and an [undefined] [lastAnalysis], which
    [JSON.stringify] leaves out, read back as the default [null]. *)
Definition reloaded (state : UserState) : UserState :=
  set_lastAnalysis
    (match lastAnalysis state with Undefined => Null | v => v end)
    (trimmed state).

(** The strings an alternative accepts when case matters. *)
Fixpoint expand (alt : list atom) : list jsstring :=
  match alt with
  | [] => [[]]
  | Ch c :: rest => map (cons c) (expand rest)
  | OneOf cs :: rest => flat_map (fun c => map (cons c) (expand rest)) cs
  end.

(** A session without its note: what [logOutcome] never changes. *)
Definition erase_note (s : Session) : Session :=
  {| id := id s; timestamp := timestamp s; goal := goal s; action := action s;
     plan := plan s; outcomeNote := Undefined |}.

(** A session that has all six properties. *)
Definition complete (s : Session) : Prop :=
  is_Some (id s) /\ is_Some (timestamp s) /\ is_Some (goal s)
  /\ is_Some (action s) /\ is_Some (plan s) /\ outcomeNote s <> Undefined.

Definition all_complete (state : UserState) : Prop :=
  Forall complete (sessions state)
  /\ (forall current, lastSession state = Some current -> complete current).

(** The line [formatHistory] writes for one turn. *)
Definition history_line (turn : Turn) : jsstring :=
  (match role turn with user => u "User" | _ => u "Assistant" end)
    ++ u ": " ++ content turn.

End Vocabulary.

(** * Properties *)

(** ** Facts about strings and patterns *)

Module RegexFacts.

Import Vocabulary.

(** Decide each comparison of the goal by linear arithmetic. *)
Ltac decide_cmp :=
  repeat match goal with
    | |- context [(?a <=? ?b)] =>
        first [ rewrite (proj2 (N.leb_le a b)) by lia
              | rewrite (proj2 (N.leb_gt a b)) by lia ]
    | |- context [(?a =? ?b)] =>
        first [ rewrite (proj2 (N.eqb_eq a b)) by lia
              | rewrite (proj2 (N.eqb_neq a b)) by lia ]
    end.

Lemma in_range_spec lo hi c : in_range lo hi c = true <-> lo <= c <= hi.
Proof.
  unfold in_range. rewrite andb_true_iff, !N.leb_le. tauto.
Qed.

Lemma is_lower_word c : is_lower c = true -> is_word c = true.
Proof.
  unfold is_word. intros ->. now rewrite orb_true_r.
Qed.

Lemma is_word_canon ic c : is_word (canon ic c) = is_word c.
Proof.
  unfold canon. destruct ic; simpl; [|reflexivity].
  destruct (is_lower c) eqn:E; [|reflexivity].
  rewrite (is_lower_word _ E).
  apply in_range_spec in E.
  unfold is_word, is_upper, is_lower, is_digit, in_range. now decide_cmp.
Qed.

Lemma canon_eq_word ic p c : canon ic p = canon ic c -> is_word p = is_word c.
Proof.
  intros E. rewrite <- (is_word_canon ic p), <- (is_word_canon ic c). now rewrite E.
Qed.

Lemma is_space_not_word c : is_space c = true -> is_word c = false.
Proof.
  unfold is_space. rewrite !orb_true_iff, !in_range_spec, !N.eqb_eq.
  intros H. unfold is_word, is_upper, is_lower, is_digit, in_range.
  repeat destruct H as [H|H]; now decide_cmp.
Qed.

Lemma atom_matches_word ic a c :
  wordy_atom a = true -> atom_matches ic a c = true -> is_word c = true.
Proof.
  destruct a as [p|cs]; simpl.
  - intros Hp E. apply N.eqb_eq, canon_eq_word in E. congruence.
  - intros Hcs E. apply existsb_exists in E as (p & Hin & E).
    apply N.eqb_eq, canon_eq_word in E.
    rewrite forallb_forall in Hcs. rewrite <- E. now apply Hcs.
Qed.

Lemma atom_matches_nonword ic a c :
  wordy_atom a = true -> is_word c = false -> atom_matches ic a c = false.
Proof.
  intros Ha Hc. destruct (atom_matches ic a c) eqn:E; [|reflexivity].
  apply atom_matches_word in E; congruence.
Qed.

Lemma head_app_nonword (x ws : jsstring) :
  nonword ws -> is_word_opt (head (x ++ ws)) = is_word_opt (head x).
Proof.
  intros Hws. destruct x; simpl; [|reflexivity].
  destruct Hws; simpl; auto.
Qed.

(** An alternative whose last atom is wordy does not fit in a run of
    non-word characters. *)
Lemma match_atoms_nonword ic alt b prev ws :
  last alt = Some b -> wordy_atom b = true -> nonword ws ->
  match_atoms ic alt prev ws = None.
Proof.
  intros Hl Hb. revert prev ws. induction alt as [|a alt IH]; intros prev ws Hws.
  - discriminate.
  - destruct Hws as [|w ws Hw Hws]; simpl; [reflexivity|].
    destruct alt as [|a' alt].
    + simpl in Hl. injection Hl as ->. now rewrite atom_matches_nonword.
    + destruct (atom_matches ic a w); [|reflexivity].
      apply IH; [exact Hl | exact Hws].
Qed.

Lemma existsb_pointwise {A} (f g : A -> bool) (l : list A) :
  (forall x, f x = g x) -> existsb f l = existsb g l.
Proof.
  intros Hfg. induction l as [|x l IH]; simpl; [reflexivity|].
  now rewrite Hfg, IH.
Qed.

Lemma match_here_words ic alts prev s :
  match_here ic [WordB; Group alts; WordB] prev s
  = word_boundary prev (head s) && existsb (alt_then_boundary ic prev s) alts.
Proof.
  simpl. f_equal. apply existsb_pointwise. intros alt. unfold alt_then_boundary.
  destruct (match_atoms ic alt prev s) as [[p' s']|]; [apply andb_true_r|reflexivity].
Qed.

Lemma alt_then_boundary_app ic alt prev x ws :
  wordy_alt alt = true -> nonword ws ->
  alt_then_boundary ic prev (x ++ ws) alt = alt_then_boundary ic prev x alt.
Proof.
  unfold wordy_alt, alt_then_boundary.
  destruct alt as [|a0 alt0]; [discriminate|].
  destruct (last (a0 :: alt0)) as [b|] eqn:Hl; [|discriminate].
  intros Hw Hws. apply andb_true_iff in Hw as [_ Hb].
  revert Hl. generalize (a0 :: alt0). clear a0 alt0. intros alt Hl.
  revert prev x. induction alt as [|a alt IH]; intros prev x; [discriminate|].
  destruct x as [|c x].
  - simpl app. rewrite (match_atoms_nonword ic (a :: alt) b prev ws Hl Hb Hws).
    reflexivity.
  - simpl. destruct (atom_matches ic a c); [|reflexivity].
    destruct alt as [|a' alt].
    + simpl. unfold word_boundary. now rewrite head_app_nonword.
    + apply IH. exact Hl.
Qed.

Lemma alt_then_boundary_prev ic alt p1 p2 s :
  wordy_alt alt = true ->
  alt_then_boundary ic p1 s alt = alt_then_boundary ic p2 s alt.
Proof.
  unfold alt_then_boundary. destruct alt as [|a alt]; [discriminate|].
  intros _. destruct s as [|c s]; reflexivity.
Qed.

Lemma alt_then_boundary_first ic alt prev w s :
  wordy_alt alt = true -> is_word w = false ->
  alt_then_boundary ic prev (w :: s) alt = false.
Proof.
  unfold wordy_alt, alt_then_boundary. destruct alt as [|a alt]; [discriminate|].
  destruct (last (a :: alt)); [|discriminate].
  intros Hw Hc. apply andb_true_iff in Hw as [Ha _]. simpl.
  now rewrite atom_matches_nonword.
Qed.

Section Words.

Variables (ic : bool) (alts : list (list atom)).
Hypothesis Halts : forallb wordy_alt alts = true.

Local Abbreviation re := [WordB; Group alts; WordB].

Lemma search_eq (r : list node) prev s :
  search ic r prev s
  = match_here ic r prev s
    || match s with [] => false | c :: s' => search ic r (Some c) s' end.
Proof. destruct s; reflexivity. Qed.

Lemma wordy_in alt : In alt alts -> wordy_alt alt = true.
Proof. intros Hin. rewrite forallb_forall in Halts. now apply Halts. Qed.

Lemma existsb_alt_ext (f g : list atom -> bool) :
  (forall alt, wordy_alt alt = true -> f alt = g alt) ->
  existsb f alts = existsb g alts.
Proof.
  intros Hfg. induction alts as [|alt l IH]; [reflexivity|].
  simpl in *. apply andb_true_iff in Halts as [Ha Hl].
  rewrite (Hfg alt Ha). f_equal. now apply IH.
Qed.

Lemma match_here_words_prev p1 p2 s :
  is_word_opt p1 = is_word_opt p2 ->
  match_here ic re p1 s = match_here ic re p2 s.
Proof.
  intros Hp. rewrite !match_here_words. unfold word_boundary.
  rewrite Hp. f_equal. apply existsb_alt_ext. intros alt Ha.
  now apply alt_then_boundary_prev.
Qed.

Lemma search_words_prev p1 p2 s :
  is_word_opt p1 = is_word_opt p2 -> search ic re p1 s = search ic re p2 s.
Proof.
  intros Hp. rewrite (search_eq _ p1), (search_eq _ p2).
  now rewrite (match_here_words_prev p1 p2).
Qed.

Lemma match_here_words_first prev w s :
  is_word w = false -> match_here ic re prev (w :: s) = false.
Proof.
  intros Hw. rewrite match_here_words.
  replace (existsb _ alts) with (existsb (fun _ => false) alts).
  - rewrite andb_comm. clear. induction alts; simpl; auto.
  - apply existsb_alt_ext. intros alt Ha. symmetry.
    now apply alt_then_boundary_first.
Qed.

Lemma match_here_words_nil prev : match_here ic re prev [] = false.
Proof.
  rewrite match_here_words.
  replace (existsb _ alts) with (existsb (fun _ => false) alts).
  - rewrite andb_comm. clear. induction alts; simpl; auto.
  - apply existsb_alt_ext. intros [|a alt] Ha; [discriminate|reflexivity].
Qed.

(** Leading non-word characters do not matter. *)
Lemma search_words_lead prev ws s :
  nonword ws -> is_word_opt prev = false ->
  search ic re prev (ws ++ s) = search ic re None s.
Proof.
  intros Hws. revert prev. induction Hws as [|w ws Hw Hws IH]; intros prev Hp.
  - simpl app. now apply search_words_prev.
  - simpl app. rewrite search_eq, match_here_words_first by exact Hw.
    now apply IH.
Qed.

Lemma match_here_words_app prev x ws :
  nonword ws -> match_here ic re prev (x ++ ws) = match_here ic re prev x.
Proof.
  intros Hws. rewrite !match_here_words. unfold word_boundary.
  rewrite head_app_nonword by exact Hws. f_equal.
  apply existsb_alt_ext. intros alt Ha. now apply alt_then_boundary_app.
Qed.

(** Nor do trailing ones. *)
Lemma search_words_trail prev x ws :
  nonword ws -> search ic re prev (x ++ ws) = search ic re prev x.
Proof.
  intros Hws. revert prev. induction x as [|c x IH]; intros prev.
  - simpl app. rewrite (search_eq _ prev []), match_here_words_nil.
    revert prev.
    induction Hws as [|w ws Hw Hws IH]; intros prev; rewrite search_eq.
    + now rewrite match_here_words_nil.
    + rewrite match_here_words_first by exact Hw. apply IH.
  - rewrite (search_eq _ prev (c :: x)), <- IH.
    rewrite <- (match_here_words_app prev (c :: x) ws Hws).
    apply search_eq.
Qed.

(** Padding a string with non-word characters on both sides does not
    change whether [/\b(...)\b/] finds a match in it. *)
Lemma test_words_pad lead x trail :
  nonword lead -> nonword trail ->
  test (words alts ic) (lead ++ x ++ trail) = test (words alts ic) x.
Proof.
  intros Hl Ht. unfold test, words. simpl nodes. simpl ignoreCase.
  rewrite search_words_lead by (exact Hl || reflexivity).
  now apply search_words_trail.
Qed.

End Words.

End RegexFacts.

Module StringFacts.

Import Worker Vocabulary RegexFacts.

Lemma spaces_nonword s : spaces s -> nonword s.
Proof.
  induction 1 as [|c s Hc Hs IH]; constructor; [|exact IH].
  now apply is_space_not_word.
Qed.

Lemma drop_while_split {A} (p : A -> bool) (l : list A) :
  exists pre, l = pre ++ drop_while p l /\ Forall (fun x => p x = true) pre.
Proof.
  induction l as [|x l (pre & E & Hpre)]; simpl.
  - exists []. split; [reflexivity|constructor].
  - destruct (p x) eqn:Hx.
    + exists (x :: pre). split; [simpl; congruence | now constructor].
    + exists []. split; [reflexivity|constructor].
Qed.

(** [trim] removes a run of white space at each end and nothing else. *)
Lemma trim_split (s : jsstring) :
  exists lead trail, s = lead ++ trim s ++ trail /\ spaces lead /\ spaces trail.
Proof.
  unfold trim, trimEnd, trimStart.
  destruct (drop_while_split is_space s) as (lead & E1 & H1).
  destruct (drop_while_split is_space (rev (drop_while is_space s))) as (tr & E2 & H2).
  exists lead, (rev tr). split; [|split].
  - rewrite E1 at 1. f_equal.
    rewrite <- (rev_involutive (drop_while is_space s)) at 1.
    rewrite E2 at 1. now rewrite rev_app_distr.
  - exact H1.
  - now apply List.Forall_rev.
Qed.

Lemma lower_unit_space c : is_space c = true -> lower_unit c = [c].
Proof.
  unfold is_space. rewrite !orb_true_iff, !in_range_spec, !N.eqb_eq.
  intros H. unfold lower_unit, is_upper, in_range.
  repeat destruct H as [H|H]; now decide_cmp.
Qed.

Lemma toLowerCase_spaces s : spaces s -> toLowerCase s = s.
Proof.
  induction 1 as [|c s Hc Hs IH]; [reflexivity|].
  unfold toLowerCase in *. simpl. rewrite IH, lower_unit_space by exact Hc.
  reflexivity.
Qed.

Lemma toLowerCase_app a b : toLowerCase (a ++ b) = toLowerCase a ++ toLowerCase b.
Proof. apply flat_map_app. Qed.

(** Lower-casing the message and lower-casing its trimmed form differ by
    white space at the two ends. *)
Lemma toLowerCase_trim (s : jsstring) :
  exists lead trail,
    toLowerCase s = lead ++ toLowerCase (trim s) ++ trail
    /\ nonword lead /\ nonword trail.
Proof.
  destruct (trim_split s) as (lead & trail & E & Hl & Ht).
  exists lead, trail. split; [|split; now apply spaces_nonword].
  rewrite E at 1. rewrite !toLowerCase_app.
  now rewrite (toLowerCase_spaces lead Hl), (toLowerCase_spaces trail Ht).
Qed.

Lemma match_here_question_end prev s :
  match_here false (nodes re_question_end) prev s
  = match s with [c] => is_question_end c | _ => false end.
Proof.
  destruct s as [|c [|c' s]]; cbn -[N.eqb]; unfold canon; cbn -[N.eqb].
  - reflexivity.
  - unfold is_question_end. cbn -[N.eqb].
    destruct ((63 =? c) || _); reflexivity.
  - destruct ((63 =? c) || _); reflexivity.
Qed.

Lemma search_question_end prev s :
  search false (nodes re_question_end) prev s
  = match last s with Some c => is_question_end c | None => false end.
Proof.
  revert prev. induction s as [|c s IH]; intros prev; [reflexivity|].
  rewrite search_eq, IH, match_here_question_end.
  destruct s as [|c' s]; [apply orb_false_r | reflexivity].
Qed.

Lemma test_question_end s :
  test re_question_end s
  = match last s with Some c => is_question_end c | None => false end.
Proof. apply search_question_end. Qed.

Lemma lower_unit_question_end c : is_question_end c = true -> lower_unit c = [c].
Proof.
  unfold is_question_end. cbn -[N.eqb]. rewrite !orb_true_iff, !N.eqb_eq.
  intros H. unfold lower_unit, is_upper, in_range.
  repeat destruct H as [H|H]; try discriminate; subst; reflexivity.
Qed.

Lemma test_question_end_lower s :
  test re_question_end s = true -> test re_question_end (toLowerCase s) = true.
Proof.
  rewrite !test_question_end. destruct (last s) as [c|] eqn:E; [|discriminate].
  intros Hc. apply last_Some in E as [s' ->].
  rewrite toLowerCase_app. unfold toLowerCase at 2. simpl.
  rewrite lower_unit_question_end by exact Hc. simpl.
  now rewrite last_snoc.
Qed.

(** A pattern [/^(w1|w2|...)$/] of literal words accepts exactly these
    words. *)
Lemma match_atoms_literal p prev s :
  (exists prev', match_atoms false (map Ch p) prev s = Some (prev', [])) <-> s = p.
Proof.
  revert prev s. induction p as [|a p IH]; intros prev s; simpl.
  - split.
    + intros [prev' E]. now injection E.
    + intros ->. now exists prev.
  - destruct s as [|c s].
    + split; [intros [? ?]; discriminate | discriminate].
    + unfold canon. simpl. destruct (N.eqb_spec a c) as [->|Hne].
      * rewrite IH. split; congruence.
      * split; [intros [? ?]; discriminate | congruence].
Qed.

Lemma search_bol_later ic re c s : search ic (Bol :: re) (Some c) s = false.
Proof.
  revert c. induction s as [|c' s IH]; intros c; [reflexivity|].
  rewrite search_eq. simpl match_here. simpl. apply IH.
Qed.

Lemma test_anchored (ps : list jsstring) (s : jsstring) :
  test {| nodes := [Bol; Group (map (map Ch) ps); Eol]; ignoreCase := false |} s = true
  <-> In s ps.
Proof.
  unfold test. simpl nodes. simpl ignoreCase. rewrite search_eq.
  replace (match s with [] => false | c :: s' => search false _ (Some c) s' end)
    with false by (destruct s; [reflexivity | now rewrite search_bol_later]).
  rewrite orb_false_r. simpl match_here. rewrite existsb_exists. split.
  - intros (alt & Hin & Hm). apply in_map_iff in Hin as (p & <- & Hin).
    destruct (match_atoms false (map Ch p) None s) as [[prev' s']|] eqn:E;
      [|discriminate].
    destruct s'; [|discriminate].
    assert (s = p) as -> by (apply (match_atoms_literal p None s); eauto).
    exact Hin.
  - intros Hin. exists (map Ch s). split; [now apply in_map|].
    destruct (proj2 (match_atoms_literal s None s) eq_refl) as [prev' ->].
    reflexivity.
Qed.

End StringFacts.

(** ** The router *)

Import Worker Runs Vocabulary RegexFacts StringFacts.

Lemma test_words_trim alts (message : jsstring) :
  forallb wordy_alt alts = true ->
  test (words alts false) (toLowerCase message)
  = test (words alts false) (toLowerCase (trim message)).
Proof.
  intros Halts.
  destruct (toLowerCase_trim message) as (lead & trail & -> & Hl & Ht).
  now apply test_words_pad.
Qed.

(** No keyword of the ladder occurs in an affirmation, and none ends in a
    question mark. *)
Lemma affirmation_no_keyword (a : jsstring) :
  In a (map u affirmations) ->
  test re_analyze a = false /\ test re_outcome a = false
  /\ test re_planning a = false /\ test re_revision a = false
  /\ test re_study a = false /\ test re_question_end a = false.
Proof.
  intros Hin. vm_compute in Hin.
  repeat destruct Hin as [<-|Hin]; try contradiction; vm_compute; tauto.
Qed.

Lemma affirmation_not_question (message : jsstring) :
  In (toLowerCase (trim message)) (map u affirmations) ->
  isDirectQuestion message = false.
Proof.
  intros Hin. unfold isDirectQuestion. destruct message as [|c m]; [reflexivity|].
  cbv zeta. destruct (test (words _ true) _); [reflexivity|].
  destruct (test re_question_end (trim (c :: m))) eqn:E; [|reflexivity].
  apply test_question_end_lower in E.
  apply affirmation_no_keyword in Hin as (_ & _ & _ & _ & _ & Hq). congruence.
Qed.

(** C1.  Whenever the trimmed message, lower-cased, is one of "ok", "okay",
    "sure", "fine", "yes", "go ahead", "do it", [chooseAction] returns
    [general_chat], in every state.  The affirmation pattern itself accepts
    a text exactly when the whole text is one of the seven words: it
    accepts "ok", "yes" and "do it", and neither "yesterday" nor
    "OK then". *)
Theorem affirmation_is_general_chat :
  (forall (state : UserState) (message : jsstring),
      In (toLowerCase (trim message)) (map u affirmations) ->
      chooseAction state message = general_chat)
  /\ (forall text : jsstring,
         test re_affirmation text = true <-> In text (map u affirmations))
  /\ test re_affirmation (toLowerCase (u "ok")) = true
  /\ test re_affirmation (toLowerCase (u "yes")) = true
  /\ test re_affirmation (toLowerCase (u "do it")) = true
  /\ test re_affirmation (toLowerCase (u "yesterday")) = false
  /\ test re_affirmation (toLowerCase (u "OK then")) = false.
Proof.
  split; [|split; [|vm_compute; tauto]].
  - intros state message Hin. unfold chooseAction.
    replace (match message with [] => [] | _ :: _ => message end) with message
      by (destruct message; reflexivity).
    pose proof (affirmation_not_question message Hin) as Hq.
    apply affirmation_no_keyword in Hin as (H1 & H2 & H3 & H4 & H5 & _).
    unfold re_analyze, re_outcome, re_planning, re_revision, re_study in *.
    do 5 (rewrite (test_words_trim _ message) by reflexivity).
    rewrite H1, H2, H3, H4, H5, Hq. simpl.
    destruct (test re_affirmation _); reflexivity.
  - intros text. unfold re_affirmation, lit.
    rewrite <- (map_map u (map Ch)). apply test_anchored.
Qed.

(** The first part of C1 at the message "  Go Ahead ". *)
Lemma affirmation_is_general_chat_witness :
  chooseAction defaults (u "  Go Ahead ") = general_chat.
Proof.
  apply (proj1 affirmation_is_general_chat).
  vm_compute. tauto.
Defined.

(** C10.  Two states that agree on whether [lastSession] is null get the
    same action for every message: [chooseAction] reads nothing else of the
    state. *)
Theorem chooseAction_depends_on_lastSession_presence :
  forall (s1 s2 : UserState) (message : jsstring),
    (lastSession s1 = None <-> lastSession s2 = None) ->
    chooseAction s1 message = chooseAction s2 message.
Proof.
  intros s1 s2 message [H12 H21]. unfold chooseAction.
  destruct (lastSession s1) as [a|], (lastSession s2) as [b|]; try reflexivity.
  - now specialize (H21 eq_refl).
  - now specialize (H12 eq_refl).
Qed.

Lemma chooseAction_depends_on_lastSession_presence_witness :
  chooseAction defaults (u "I finished the plan")
  = chooseAction busy_state (u "I finished the plan").
Proof.
  apply chooseAction_depends_on_lastSession_presence.
  split; reflexivity.
Defined.

(** ** [isDirectQuestion] against the specification's words *)

Module DirectQuestion.

Import Spec Vocabulary.

Lemma last_or_cons prev c s : last_or prev (c :: s) = last_or (Some c) s.
Proof. unfold last_or. rewrite last_cons. now destruct (last s). Qed.

Lemma last_or_None s : last_or None s = last s.
Proof. unfold last_or. now destruct (last s). Qed.

Lemma last_or_last pre mid : last_or (last pre) mid = last (pre ++ mid).
Proof. unfold last_or. now rewrite last_app. Qed.

Lemma canon_fold a c :
  (canon true a =? canon true c) = true <-> fold_case a = fold_case c.
Proof.
  rewrite N.eqb_eq. unfold canon, fold_case, is_lower, is_upper, in_range.
  cbn [andb].
  destruct (N.leb_spec 97 a), (N.leb_spec a 122), (N.leb_spec 97 c),
    (N.leb_spec c 122), (N.leb_spec 65 a), (N.leb_spec a 90),
    (N.leb_spec 65 c), (N.leb_spec c 90); cbn [andb]; lia.
Qed.

(** Consuming a literal, case-insensitively, splits off a prefix that is
    the same word. *)
Lemma match_atoms_ci w prev s prev' rest :
  match_atoms true (map Ch w) prev s = Some (prev', rest)
  <-> exists mid, s = mid ++ rest /\ same_word mid w /\ prev' = last_or prev mid.
Proof.
  unfold same_word. revert prev s.
  induction w as [|a w IH]; intros prev s; cbn [map match_atoms].
  - split.
    + intros [= <- <-]. now exists [].
    + intros (mid & -> & E & ->). destruct mid; [reflexivity|discriminate].
  - destruct s as [|c s].
    + split; [discriminate|].
      intros (mid & E & Hm & _). destruct mid; discriminate.
    + cbn [atom_matches]. destruct (canon true a =? canon true c) eqn:Eac.
      * apply canon_fold in Eac. rewrite IH. split.
        -- intros (mid & -> & Hm & ->). exists (c :: mid).
           rewrite last_or_cons. cbn [map]. repeat split; congruence.
        -- intros (mid & E & Hm & ->). destruct mid as [|c' mid]; [discriminate|].
           injection E as <- ->. injection Hm as _ Hm.
           exists mid. now rewrite last_or_cons.
      * split; [discriminate|].
        intros (mid & E & Hm & _). destruct mid as [|c' mid]; [discriminate|].
        injection E as <- ->. injection Hm as Hac _.
        symmetry in Hac. apply canon_fold in Hac. congruence.
Qed.

(** A search succeeds exactly when the pattern matches at some split of
    the text. *)
Lemma search_split ic re prev s :
  search ic re prev s = true
  <-> exists pre post, s = pre ++ post
                       /\ match_here ic re (last_or prev pre) post = true.
Proof.
  revert prev. induction s as [|c s IH]; intros prev; rewrite search_eq.
  - rewrite orb_false_r. split.
    + intros H. now exists [], [].
    + intros (pre & post & E & H). symmetry in E.
      apply app_eq_nil in E as [-> ->]. exact H.
  - rewrite orb_true_iff, IH. split.
    + intros [H|(pre & post & -> & H)].
      * now exists [], (c :: s).
      * exists (c :: pre), post. now rewrite last_or_cons.
    + intros (pre & post & E & H). destruct pre as [|c' pre].
      * left. simpl in E. now subst post.
      * right. injection E as <- ->. exists pre, post.
        now rewrite last_or_cons in H.
Qed.

Lemma xorb_true_neq a b : xorb a b = true <-> a <> b.
Proof. destruct a, b; simpl; split; congruence. Qed.

(** The pattern [/\b(w1|w2|...)\b/i] finds a match exactly when the text
    contains one of the words in the sense of the specification. *)
Lemma test_words_spec (ws : list string) (s : jsstring) :
  test (words (map lit ws) true) s = true
  <-> exists w, In w ws /\ contains_word (u w) s.
Proof.
  unfold test, words. cbn [nodes ignoreCase]. rewrite search_split.
  setoid_rewrite last_or_None. split.
  - intros (pre & post & -> & H). rewrite match_here_words in H.
    apply andb_true_iff in H as [Hb H].
    apply existsb_exists in H as (alt & Hin & H).
    apply in_map_iff in Hin as (w & <- & Hin).
    unfold alt_then_boundary, lit in H.
    destruct (match_atoms true (map Ch (u w)) (last pre) post)
      as [[prev' rest]|] eqn:E; [|discriminate].
    apply match_atoms_ci in E as (mid & -> & Hm & ->).
    exists w. split; [exact Hin|]. exists pre, mid, rest.
    unfold word_edge. split; [reflexivity|]. split; [exact Hm|].
    rewrite <- last_or_last. split; now apply xorb_true_neq.
  - intros (w & Hin & pre & mid & post & -> & Hm & H1 & H2).
    exists pre, (mid ++ post). split; [reflexivity|].
    rewrite match_here_words. apply andb_true_iff. split.
    + now apply xorb_true_neq.
    + apply existsb_exists. exists (lit w). split; [now apply in_map|].
      unfold alt_then_boundary, lit.
      assert (match_atoms true (map Ch (u w)) (last pre) (mid ++ post)
              = Some (last_or (last pre) mid, post)) as ->
        by (apply match_atoms_ci; now exists mid).
      apply xorb_true_neq. unfold word_edge in H2.
      now rewrite <- last_or_last in H2.
Qed.

Lemma test_question_end_spec (s : jsstring) :
  test re_question_end s = true <-> ends_in_question_mark s.
Proof.
  rewrite test_question_end. unfold ends_in_question_mark. split.
  - destruct (last s) as [c|] eqn:E; [|discriminate].
    apply last_Some in E as [pre ->]. intros Hc. exists pre, c.
    split; [reflexivity|]. unfold is_question_end in Hc.
    apply existsb_exists in Hc as (p & Hin & Hp). apply N.eqb_eq in Hp.
    now subst p.
  - intros (pre & c & -> & Hin). rewrite last_snoc.
    apply existsb_exists. exists c. split; [exact Hin | apply N.eqb_refl].
Qed.

End DirectQuestion.

(** C9.  [isDirectQuestion] is true exactly when the trimmed message ends
    in a question mark (ASCII, or the full-width question or exclamation
    mark) and contains none of the words plan, schedule, session, block and
    none of we, I, me, my, compared case-insensitively between word
    boundaries.  It is true of "What is a pointer?" and false of
    "Can I get a plan?". *)
Theorem isDirectQuestion_spec :
  (forall message : jsstring,
      isDirectQuestion message = true <-> Spec.direct_question message)
  /\ isDirectQuestion (u "What is a pointer?") = true
  /\ isDirectQuestion (u "Can I get a plan?") = false.
Proof.
  split; [|split; vm_compute; reflexivity].
  intros message. unfold Spec.direct_question.
  assert (Hw : forall ws, (forall w, In w ws -> ~ Spec.contains_word (u w) (trim message))
                          <-> test (words (map lit ws) true) (trim message) = false).
  { intros ws. rewrite <- not_true_iff_false, DirectQuestion.test_words_spec.
    split.
    - intros H (w & Hin & Hc). exact (H w Hin Hc).
    - intros H w Hin Hc. apply H. now exists w. }
  rewrite !Hw, <- DirectQuestion.test_question_end_spec.
  unfold isDirectQuestion. destruct message as [|c m].
  - split; [discriminate|]. intros (H & _). vm_compute in H. discriminate.
  - cbv zeta. unfold planning_words, pronoun_words.
    destruct (test (words _ true) (trim (c :: m)));
      destruct (test re_question_end (trim (c :: m)));
      destruct (test (words _ true) (trim (c :: m))); simpl; intuition congruence.
Qed.

(** ** The handlers *)

(** X1.  On any state with a session to revise, dispatched or not,
    [revisePlan] appends one session that carries the goal of the previous
    one, the action [revise_plan], the reply as its plan and an id and
    timestamp read from the clock, and makes it [lastSession]. *)
Theorem revisePlan_inherits_goal :
  forall (state : UserState) (message : jsstring) (env : Env) (previous : Session),
    lastSession state = Some previous ->
    let outcome := revisePlan state message env in
    exists session : Session,
      sessions (newState outcome) = sessions state ++ [session]
      /\ lastSession (newState outcome) = Some session
      /\ goal session = goal previous
      /\ action session = Some revise_plan
      /\ plan session = Some (reply outcome)
      /\ id session = Some (String_of_Z (Date_now env 0))
      /\ timestamp session = Some (Date_now env 1).
Proof.
  intros state message env previous Hlast outcome.
  eexists. split; [reflexivity|]. split; [reflexivity|].
  cbn. rewrite Hlast. repeat split.
Qed.

Lemma revisePlan_inherits_goal_witness :
  goal <$> lastSession (newState (revisePlan planned_state (u "make it shorter")
                                    (env_of ∅ silent)))
  = Some (Some (u "binary search")).
Proof.
  destruct (revisePlan_inherits_goal planned_state (u "make it shorter")
              (env_of ∅ silent) binary_search eq_refl) as (s & _ & H2 & H3 & _).
  rewrite H2. cbn. rewrite H3. reflexivity.
Defined.

(** X2, the parts of C3 that the code keeps.  The prompt of [analyzePattern] is
    built from the last sessions, ten at most, and from nothing else of the
    log; [sessions] and [lastSession] are unchanged; and when the text of
    the model comes under [result], it is the reply and the new
    [lastAnalysis]. *)
Theorem analyzePattern_keeps_sessions :
  forall (JSON_stringify : list Session -> jsstring)
         (state : UserState) (message : jsstring) (env : Env),
    let shown := slice_last 10 (sessions state) in
    let aiResult :=
      AI_run env MODEL
        (chat_messages (analyze_prompt JSON_stringify shown message)
           (u "Analyze my patterns")) 500 in
    let outcome := analyzePattern JSON_stringify state message env in
    (length shown <= 10)%nat
    /\ (exists older, sessions state = older ++ shown)
    /\ reply outcome = text_or aiResult (u "No data.")
    /\ sessions (newState outcome) = sessions state
    /\ lastSession (newState outcome) = lastSession state
    /\ (forall c text, opt_chain result aiResult = Val (c :: text) ->
                       reply outcome = c :: text
                       /\ lastAnalysis (newState outcome) = Val (reply outcome)).
Proof.
  intros JSON_stringify state message env shown aiResult outcome.
  split; [|split; [|split; [|split; [|split]]]]; try reflexivity.
  - unfold shown, slice_last. rewrite length_drop. lia.
  - exists (take (length (sessions state) - 10) (sessions state)).
    unfold shown, slice_last. now rewrite take_drop.
  - intros c text H.
    assert (Hr : reply outcome = c :: text).
    { change (reply outcome) with (text_or aiResult (u "No data.")).
      unfold text_or. now rewrite H. }
    split; [exact Hr|]. rewrite Hr.
    change (lastAnalysis (newState outcome)) with (opt_chain result aiResult).
    exact H.
Qed.

(** C3, where the code departs from it.  [lastAnalysis] is the [result]
    property of what the model returned, not the reply.  When the text
    comes under [response], the reply is that text and [lastAnalysis] is
    [undefined]. *)
Theorem analyzePattern_loses_response_text :
  let outcome :=
    analyzePattern count_sessions planned_state (u "Analyze my study habits so far.")
      (env_of ∅ (answers_in_response (u "You study late."))) in
  reply outcome = u "You study late."
  /\ lastAnalysis (newState outcome) = Undefined
  /\ lastAnalysis (newState outcome) <> Val (reply outcome).
Proof.
  repeat split. discriminate.
Qed.

(** [logOutcome] never throws: the assignment into the log is guarded by
    the test on its length. *)
Lemma logOutcome_total (state : UserState) (message : jsstring) (env : Env) :
  exists updated,
    logOutcome state message env
    = Ok {| reply := text_or (AI_run env MODEL
                                (chat_messages
                                   (log_outcome_prompt
                                      (match lastSession state with
                                       | Some s => plan s
                                       | None => Some (u "(No plan)")
                                       end) message) message) 300) (u "Logged.");
            newState :=
              set_sessions (Some (set_outcomeNote message (spread (lastSession state))))
                updated state |}
    /\ updated
       = match sessions state with
         | [] => []
         | _ => alter (set_outcomeNote message) (length (sessions state) - 1)%nat
                  (sessions state)
         end.
Proof.
  unfold logOutcome. cbv zeta. destruct (sessions state) as [|s l] eqn:E.
  - eexists. split; reflexivity.
  - unfold assign_outcomeNote.
    replace (0 <? length (s :: l))%nat with true
      by (symmetry; apply Nat.ltb_lt; simpl; lia).
    replace ((0 <=? Z.of_nat (length (s :: l)) - 1)
             && (Z.of_nat (length (s :: l)) - 1 <? Z.of_nat (length (s :: l))))%Z
      with true by (symmetry; apply andb_true_iff; split;
                    [apply Z.leb_le | apply Z.ltb_lt]; simpl length; lia).
    eexists. split; [reflexivity|]. f_equal. simpl length. lia.
Qed.

(** What [logOutcome] does to the log and to [lastSession]. *)
Lemma logOutcome_effect :
  forall (state : UserState) (message : jsstring) (env : Env),
    exists outcome : Outcome,
      logOutcome state message env = Ok outcome
      /\ length (sessions (newState outcome)) = length (sessions state)
      /\ (sessions state = [] -> sessions (newState outcome) = [])
      /\ (forall older final, sessions state = older ++ [final] ->
            sessions (newState outcome) = older ++ [set_outcomeNote message final])
      /\ (forall current, lastSession state = Some current ->
            lastSession (newState outcome) = Some (set_outcomeNote message current)).
Proof.
  intros state message env.
  destruct (logOutcome_total state message env) as (updated & -> & Hup).
  eexists. split; [reflexivity|]. cbn.
  split; [|split; [|split]].
  - subst updated. destruct (sessions state); [reflexivity|].
    apply length_alter.
  - intros E. now rewrite E in Hup.
  - intros older final E. subst updated. rewrite E.
    destruct (older ++ [final]) eqn:E'; [now destruct older|]. rewrite <- E'.
    rewrite length_app. cbn [length].
    replace (length older + 1 - 1)%nat with (length older + 0)%nat by lia.
    now rewrite alter_app_r.
  - intros current ->. reflexivity.
Qed.

(** X3.  On any state, dispatched or not, [logOutcome] returns a reply,
    the empty log included; the log keeps its length; its
    last element, if any, gets the message as [outcomeNote] and the other
    elements are unchanged; with a session in [lastSession], that session
    gets the message as [outcomeNote] and keeps its other properties. *)
Theorem logOutcome_notes_outcome :
  forall (state : UserState) (message : jsstring) (env : Env),
    exists outcome : Outcome,
      logOutcome state message env = Ok outcome
      /\ length (sessions (newState outcome)) = length (sessions state)
      /\ (sessions state = [] -> sessions (newState outcome) = [])
      /\ (forall older final, sessions state = older ++ [final] ->
            sessions (newState outcome) = older ++ [set_outcomeNote message final])
      /\ (forall current, lastSession state = Some current ->
            lastSession (newState outcome) = Some (set_outcomeNote message current)).
Proof.
  intros state message env.
  destruct (logOutcome_effect state message env) as (outcome & Hok & Hrest).
  exists outcome. split; [exact Hok | exact Hrest].
Qed.

(** X24.  When the model returns an absent or empty payload, every handler
    returns normally and answers with its fixed fallback string;
    [createPlan] and [revisePlan] append and select a session whose plan is
    the fallback, [logOutcome] records the note, [answerDirectQuestion] and
    [handleGeneralChat] return the state as it was, and [analyzePattern]
    leaves the log alone and puts into [lastAnalysis] the [result] property
    of what the model returned, which holds no text, not the fallback. *)
Theorem empty_payload_gives_fallback :
  forall (JSON_stringify : list Session -> jsstring) (chosen : Action)
         (state : UserState) (message : jsstring) (env : Env),
    (forall model messages max_tokens,
        Spec.absent_or_empty (AI_run env model messages max_tokens)) ->
    exists outcome : Outcome,
      run_action JSON_stringify chosen state message env = Ok outcome
      /\ reply outcome = Spec.fallback chosen
      /\ match chosen with
         | create_plan =>
             exists session,
               sessions (newState outcome) = sessions state ++ [session]
               /\ lastSession (newState outcome) = Some session
               /\ plan session = Some (Spec.fallback create_plan)
               /\ goal session = Some message
               /\ action session = Some create_plan
         | revise_plan =>
             exists session,
               sessions (newState outcome) = sessions state ++ [session]
               /\ lastSession (newState outcome) = Some session
               /\ plan session = Some (Spec.fallback revise_plan)
               /\ action session = Some revise_plan
         | log_outcome =>
             length (sessions (newState outcome)) = length (sessions state)
             /\ (exists current, lastSession (newState outcome) = Some current
                                 /\ outcomeNote current = Val message)
             /\ (forall older final, sessions state = older ++ [final] ->
                   sessions (newState outcome)
                   = older ++ [set_outcomeNote message final])
         | analyze_pattern =>
             sessions (newState outcome) = sessions state
             /\ lastSession (newState outcome) = lastSession state
             /\ lastAnalysis (newState outcome)
                = opt_chain result
                    (AI_run env MODEL
                       (chat_messages
                          (analyze_prompt JSON_stringify
                             (slice_last 10 (sessions state)) message)
                          (u "Analyze my patterns")) 500)
             /\ Spec.no_text (lastAnalysis (newState outcome))
             /\ profile (newState outcome) = profile state
             /\ recentHistory (newState outcome) = recentHistory state
         | direct_answer | general_chat => newState outcome = state
         end.
Proof.
  intros JSON_stringify chosen state message env Hempty.
  assert (Hfb : forall model messages max_tokens d,
             text_or (AI_run env model messages max_tokens) d = d).
  { intros model messages max_tokens d.
    specialize (Hempty model messages max_tokens). unfold text_or.
    destruct (AI_run env model messages max_tokens) as [[r1 r2]|]; [|reflexivity].
    destruct Hempty as [H1 H2]. cbn in *.
    destruct r1 as [| |[|? ?]], r2 as [| |[|? ?]]; cbn in *; tauto. }
  destruct chosen; cbn [run_action].
  - eexists. split; [reflexivity|]. cbn [reply newState analyzePattern].
    rewrite Hfb. split; [reflexivity|].
    split; [reflexivity|]. split; [reflexivity|]. split; [reflexivity|].
    split; [|split; reflexivity].
    cbn [lastAnalysis set_lastAnalysis].
    match goal with |- context [AI_run env ?m ?p ?k] =>
      specialize (Hempty m p k); destruct (AI_run env m p k) as [[r1 r2]|] end;
      [apply Hempty | exact I].
  - destruct (logOutcome_effect state message env)
      as (outcome & Ho & Hlen & _ & Happ & _).
    exists outcome. split; [exact Ho|].
    destruct (logOutcome_total state message env) as (updated & Ho' & _).
    rewrite Ho' in Ho. injection Ho as <-. cbn. rewrite Hfb.
    split; [reflexivity|]. split; [exact Hlen|]. split; [|exact Happ].
    eexists. split; reflexivity.
  - eexists. split; [reflexivity|]. cbn. rewrite Hfb.
    split; [reflexivity|]. eexists. repeat split.
  - eexists. split; [reflexivity|]. cbn. rewrite Hfb.
    split; [reflexivity|]. eexists. repeat split.
  - eexists. split; [reflexivity|]. cbn. rewrite Hfb. split; reflexivity.
  - eexists. split; [reflexivity|]. cbn. rewrite Hfb. split; reflexivity.
Qed.

Lemma empty_payload_gives_fallback_witness :
  exists outcome : Outcome,
    run_action count_sessions create_plan defaults (u "plan my week") (env_of ∅ silent)
    = Ok outcome
    /\ reply outcome = u "Could not generate plan.".
Proof.
  destruct (empty_payload_gives_fallback count_sessions create_plan defaults
              (u "plan my week") (env_of ∅ silent) (fun _ _ _ => I))
    as (outcome & Hrun & Hreply & _).
  exists outcome. split; [exact Hrun | exact Hreply].
Defined.

(** ** The chat endpoint *)

Lemma loadStudyState_kv (env : Env) : loadStudyState env userId = load (STUDY_STATE_KV env).
Proof. reflexivity. Qed.

(** What the next load sees of a saved state. *)
Lemma load_saveStudyState (env : Env) (state : UserState) :
  let after := load (saveStudyState env userId state) in
  recentHistory after = recentHistory (trimmed state)
  /\ lastSession after = lastSession state
  /\ sessions after = sessions state.
Proof.
  unfold load, loadStudyState, saveStudyState. cbn [STUDY_STATE_KV].
  rewrite lookup_insert_eq. cbn.
  unfold trimmed. destruct (8 <? length (recentHistory state))%nat; cbn;
    destruct (lastSession state); repeat split.
Qed.

Lemma run_action_total JSON_stringify chosen state message env :
  exists outcome, run_action JSON_stringify chosen state message env = Ok outcome.
Proof.
  destruct chosen; cbn [run_action]; eauto.
  destruct (logOutcome_total state message env) as (updated & -> & _). eauto.
Qed.

(** The chat endpoint always answers, and writes the state of the handler
    with the two new turns. *)
Lemma fetch_chat JSON_stringify (message : jsstring) (env : Env) :
  let state := loadStudyState env userId in
  exists outcome,
    run_action JSON_stringify (chooseAction state message) state message env = Ok outcome
    /\ fetch JSON_stringify (chat message) env
       = Ok ({| status := 200;
                body := ChatBody (reply outcome) (chooseAction state message) |},
             saveStudyState env userId (finalState state message outcome)).
Proof.
  intros state.
  destruct (run_action_total JSON_stringify (chooseAction state message) state message env)
    as (outcome & Ho).
  exists outcome. split; [exact Ho|].
  unfold fetch. cbn [method pathname chat json_message String.eqb Ascii.eqb
                       Bool.eqb andb]. cbn.
  fold state. now rewrite Ho.
Qed.

(** [log_outcome] is only chosen when there is a session. *)
Lemma chooseAction_log_outcome (state : UserState) (message : jsstring) :
  chooseAction state message = log_outcome ->
  exists current, lastSession state = Some current.
Proof.
  unfold chooseAction. destruct (lastSession state) as [s|]; [eauto|].
  cbn [truthy]. rewrite !andb_false_r.
  repeat match goal with |- context [if ?b then _ else _] => destruct b end;
    discriminate.
Qed.

Lemma run_action_consistent JSON_stringify state message env outcome :
  consistent state ->
  run_action JSON_stringify (chooseAction state message) state message env = Ok outcome ->
  consistent (newState outcome).
Proof.
  intros Hc. destruct (chooseAction state message) eqn:E; cbn [run_action].
  - intros [= <-]. exact Hc.
  - destruct (chooseAction_log_outcome _ _ E) as (current & Hcur).
    destruct (logOutcome_effect state message env)
      as (o & -> & _ & _ & Happ & Hlast).
    intros [= <-]. pose proof (Hc _ Hcur) as Hl.
    apply last_Some in Hl as (older & Hl).
    intros s Hs. rewrite (Hlast _ Hcur) in Hs. injection Hs as <-.
    rewrite (Happ _ _ Hl). apply last_snoc.
  - intros [= <-] s [= <-]. apply last_snoc.
  - intros [= <-] s [= <-]. apply last_snoc.
  - intros [= <-]. exact Hc.
  - intros [= <-]. exact Hc.
Qed.

Lemma reachable_consistent JSON_stringify kv :
  reachable JSON_stringify kv -> consistent (load kv).
Proof.
  induction 1 as [|request env response kv Hreach IH Hfetch].
  - intros s. discriminate.
  - unfold fetch in Hfetch.
    destruct (String.eqb (method request) "OPTIONS");
      [injection Hfetch as _ <-; exact IH|].
    destruct (String.eqb (pathname request) "/api/health");
      [injection Hfetch as _ <-; exact IH|].
    destruct (String.eqb (pathname request) "/debug/state");
      [injection Hfetch as _ <-; exact IH|].
    destruct (String.eqb (pathname request) "/debug/reset").
    { injection Hfetch as _ <-. intros s.
      unfold load, loadStudyState. cbn [STUDY_STATE_KV].
      rewrite lookup_insert_eq. discriminate. }
    destruct (_ && _); [|injection Hfetch as _ <-; exact IH].
    cbv zeta in Hfetch.
    destruct (run_action _ _ _ _ _) as [outcome|e] eqn:Hrun; [|discriminate].
    injection Hfetch as _ <-.
    destruct (load_saveStudyState env
                (finalState (loadStudyState env userId) (json_message request) outcome))
      as (_ & Hls & Hss).
    intros s. rewrite Hls, Hss.
    apply (run_action_consistent _ _ _ _ _ IH Hrun).
Qed.

(** C5.  In every namespace the worker can bring about from an empty one,
    the loaded state has this property: if [lastSession] is a session, the
    log is not empty and its last element has the same id; and whenever
    [log_outcome] is chosen for a message, [logOutcome] returns a state in
    which [lastSession] and the last element of the log have the same id
    and both carry the message as [outcomeNote]. *)
Theorem lastSession_is_last_of_sessions :
  forall (JSON_stringify : list Session -> jsstring) (env : Env),
    reachable JSON_stringify (STUDY_STATE_KV env) ->
    let state := loadStudyState env userId in
    (forall current, lastSession state = Some current ->
       exists final, last (sessions state) = Some final /\ id final = id current)
    /\ (forall message, chooseAction state message = log_outcome ->
          exists outcome current final,
            logOutcome state message env = Ok outcome
            /\ lastSession (newState outcome) = Some current
            /\ last (sessions (newState outcome)) = Some final
            /\ id final = id current
            /\ outcomeNote current = Val message
            /\ outcomeNote final = Val message).
Proof.
  intros JSON_stringify env Hreach state.
  pose proof (reachable_consistent _ _ Hreach) as Hc.
  rewrite <- loadStudyState_kv in Hc. fold state in Hc. split.
  - intros current Hcur. exists current. split; [now apply Hc | reflexivity].
  - intros message Hlog.
    destruct (chooseAction_log_outcome _ _ Hlog) as (current & Hcur).
    destruct (logOutcome_effect state message env)
      as (outcome & Ho & _ & _ & Happ & Hlast).
    pose proof (Hc _ Hcur) as Hl. apply last_Some in Hl as (older & Hl).
    exists outcome, (set_outcomeNote message current), (set_outcomeNote message current).
    split; [exact Ho|]. split; [now apply Hlast|].
    split; [rewrite (Happ _ _ Hl); apply last_snoc|]. repeat split.
Qed.

Lemma after_first_plan_reachable : reachable count_sessions after_first_plan.
Proof.
  unfold after_first_plan.
  destruct (fetch_chat count_sessions (u "I want to study graphs")
              (env_of ∅ (answers_in_response (u "- read chapter 1"))))
    as (outcome & _ & Hfetch).
  rewrite Hfetch. eapply reach_fetch; [|exact Hfetch]. apply reach_empty.
Qed.

Lemma lastSession_is_last_of_sessions_witness :
  let state := load after_first_plan in
  (forall current, lastSession state = Some current ->
     exists final, last (sessions state) = Some final /\ id final = id current)
  /\ (forall message, chooseAction state message = log_outcome ->
        exists outcome current final,
          logOutcome state message (env_of after_first_plan silent) = Ok outcome
          /\ lastSession (newState outcome) = Some current
          /\ last (sessions (newState outcome)) = Some final
          /\ id final = id current
          /\ outcomeNote current = Val message
          /\ outcomeNote final = Val message).
Proof.
  exact (lastSession_is_last_of_sessions count_sessions
           (env_of after_first_plan silent) after_first_plan_reachable).
Defined.

(** ** The bound on [recentHistory] *)

Lemma slice_last_length {A} (n : nat) (l : list A) : (length (slice_last n l) <= n)%nat.
Proof. unfold slice_last. rewrite length_drop. lia. Qed.

Lemma slice_last_short {A} (n : nat) (l : list A) :
  (length l <= n)%nat -> slice_last n l = l.
Proof.
  intros H. unfold slice_last. now replace (length l - n)%nat with 0%nat by lia.
Qed.

(** Trimming, appending and trimming again keeps the same elements as
    appending and trimming once. *)
Lemma slice_last_app {A} (n : nat) (a b : list A) :
  slice_last n (slice_last n a ++ b) = slice_last n (a ++ b).
Proof.
  destruct (Nat.le_gt_cases (length a) n) as [Hle|Hgt].
  - now rewrite (slice_last_short n a Hle).
  - unfold slice_last. rewrite !length_app, length_drop.
    replace (length a - (length a - n) + length b - n)%nat with (length b) by lia.
    replace (length a + length b - n)%nat with ((length a - n) + length b)%nat by lia.
    rewrite <- drop_drop. f_equal. rewrite drop_app_le by lia. reflexivity.
Qed.

Lemma trimmed_recentHistory (state : UserState) :
  recentHistory (trimmed state) = slice_last 8 (recentHistory state).
Proof.
  unfold trimmed. destruct (Nat.ltb_spec 8 (length (recentHistory state))).
  - reflexivity.
  - now rewrite slice_last_short.
Qed.

(** One request to the chat endpoint: the stored history is the last
    eight of the history it loaded followed by the message and the reply. *)
Lemma fetch_chat_history JSON_stringify (message : jsstring) (env : Env) :
  exists response kv,
    fetch JSON_stringify (chat message) env = Ok (response, kv)
    /\ recentHistory (load kv)
       = slice_last 8
           (recentHistory (load (STUDY_STATE_KV env))
              ++ [ {| role := user; content := message |};
                   {| role := assistant; content := reply_of response |} ]).
Proof.
  destruct (fetch_chat JSON_stringify message env) as (outcome & _ & Hfetch).
  eexists. eexists. split; [exact Hfetch|].
  destruct (load_saveStudyState env
              (finalState (loadStudyState env userId) message outcome)) as (-> & _).
  now rewrite trimmed_recentHistory.
Qed.

Lemma converse_cons JSON_stringify kv env message rest :
  converse JSON_stringify kv ((env, message) :: rest)
  = match fetch JSON_stringify (chat message) (on_kv kv env) with
    | Ok (response, kv') =>
        match converse JSON_stringify kv' rest with
        | Ok (kv'', turns) =>
            Ok (kv'',
                {| role := user; content := message |}
                  :: {| role := assistant; content := reply_of response |}
                  :: turns)
        | Throw e => Throw e
        end
    | Throw e => Throw e
    end.
Proof. reflexivity. Qed.

(** C6.  Every write of [saveStudyState] stores the last eight entries of
    the history it is given, in their order, so at most eight; every
    request that writes leaves a stored history of at most eight entries;
    and after any conversation of one request or more, from any stored
    record, the stored history is the last eight of what was stored before
    followed by the turns of the conversation (message, reply, message,
    reply, ...) in the order they occurred. *)
Theorem recentHistory_holds_last_eight :
  forall JSON_stringify : list Session -> jsstring,
    (forall (env : Env) (state : UserState),
        let kept := recentHistory (load (saveStudyState env userId state)) in
        kept = slice_last 8 (recentHistory state)
        /\ (length kept <= 8)%nat
        /\ exists evicted, recentHistory state = evicted ++ kept)
    /\ (forall (request : Request) (env : Env) response kv,
           fetch JSON_stringify request env = Ok (response, kv) ->
           kv = STUDY_STATE_KV env
           \/ (length (recentHistory (load kv)) <= 8)%nat)
    /\ (forall (kv : gmap string Stored) (first : Env * jsstring)
               (rest : list (Env * jsstring)),
           exists kv' replies,
             let messages := map snd (first :: rest) in
             converse JSON_stringify kv (first :: rest)
             = Ok (kv', Spec.transcript messages replies)
             /\ length replies = length messages
             /\ recentHistory (load kv')
                = slice_last 8 (recentHistory (load kv) ++ Spec.transcript messages replies)
             /\ (length (recentHistory (load kv')) <= 8)%nat).
Proof.
  intros JSON_stringify. split; [|split].
  - intros env state kept. subst kept.
    destruct (load_saveStudyState env state) as (-> & _).
    rewrite trimmed_recentHistory. split; [reflexivity|].
    split; [apply slice_last_length|].
    exists (take (length (recentHistory state) - 8) (recentHistory state)).
    unfold slice_last. now rewrite take_drop.
  - intros request env response kv Hfetch. unfold fetch in Hfetch.
    destruct (String.eqb (method request) "OPTIONS");
      [injection Hfetch as _ <-; now left|].
    destruct (String.eqb (pathname request) "/api/health");
      [injection Hfetch as _ <-; now left|].
    destruct (String.eqb (pathname request) "/debug/state");
      [injection Hfetch as _ <-; now left|].
    destruct (String.eqb (pathname request) "/debug/reset").
    { injection Hfetch as _ <-. right.
      unfold load, loadStudyState. cbn [STUDY_STATE_KV].
      rewrite lookup_insert_eq. cbn. lia. }
    destruct (_ && _); [|injection Hfetch as _ <-; now left].
    cbv zeta in Hfetch.
    destruct (run_action _ _ _ _ _) as [outcome|e]; [|discriminate].
    injection Hfetch as _ <-. right.
    match goal with |- context [saveStudyState env userId ?s] =>
      destruct (load_saveStudyState env s) as (-> & _) end.
    rewrite trimmed_recentHistory. apply slice_last_length.
  - intros kv first rest. revert kv first.
    induction rest as [|second rest IH]; intros kv [env message].
    + destruct (fetch_chat_history JSON_stringify message (on_kv kv env))
        as (response & kv' & Hfetch & Hhist).
      exists kv', [reply_of response]. cbv zeta. rewrite converse_cons, Hfetch.
      cbn [converse map snd Spec.transcript]. split; [reflexivity|]. split; [reflexivity|].
      split; [exact Hhist|]. rewrite Hhist. apply slice_last_length.
    + destruct (fetch_chat_history JSON_stringify message (on_kv kv env))
        as (response & kv1 & Hfetch & Hhist).
      destruct (IH kv1 second) as (kv' & replies & Hconv & Hlen & Hh & Hle).
      exists kv', (reply_of response :: replies).
      cbv zeta in *. rewrite converse_cons, Hfetch, Hconv.
      split; [reflexivity|]. split; [cbn in *; lia|]. split; [|exact Hle].
      rewrite Hh, Hhist. cbn [STUDY_STATE_KV on_kv].
      rewrite slice_last_app. f_equal.
      cbn [map snd Spec.transcript]. now rewrite <- app_assoc.
Qed.

(** The last part of C6 on a conversation of five messages, which leaves
    ten turns to choose from. *)
Lemma recentHistory_holds_last_eight_witness :
  exists kv' replies,
    let requests :=
      map (fun m => (env_of ∅ (answers_in_response (u "noted")), u m))
        ["hello"; "I want to study graphs"; "ok"; "What is a tree?"; "I am done"]%string in
    converse count_sessions ∅ requests
    = Ok (kv', Spec.transcript (map snd requests) replies)
    /\ length replies = length (map snd requests)
    /\ recentHistory (load kv')
       = slice_last 8 (recentHistory (load ∅) ++ Spec.transcript (map snd requests) replies)
    /\ (length (recentHistory (load kv')) <= 8)%nat.
Proof.
  exact (proj2 (proj2 (recentHistory_holds_last_eight count_sessions)) ∅
           (env_of ∅ (answers_in_response (u "noted")), u "hello")
           (map (fun m => (env_of ∅ (answers_in_response (u "noted")), u m))
              ["I want to study graphs"; "ok"; "What is a tree?"; "I am done"]%string)).
Defined.

(** * Further properties of the worker *)

(** ** The state store *)

Lemma kv_key_inj (a b : string) : kv_key a = kv_key b -> a = b.
Proof. unfold kv_key. cbv [String.append]. now intros [= H]. Qed.

Lemma trimmed_idempotent (state : UserState) : trimmed (trimmed state) = trimmed state.
Proof.
  unfold trimmed at 1. rewrite trimmed_recentHistory.
  destruct (Nat.ltb_spec 8 (length (slice_last 8 (recentHistory state))));
    [|reflexivity].
  pose proof (slice_last_length 8 (recentHistory state)). lia.
Qed.

Lemma loadStudyState_after_save (env env' : Env) (uid : string) (state : UserState) :
  loadStudyState (on_kv (saveStudyState env uid state) env') uid = reloaded state.
Proof.
  unfold loadStudyState, saveStudyState. cbn [STUDY_STATE_KV on_kv].
  rewrite lookup_insert_eq. unfold reloaded, set_lastAnalysis. cbn.
  destruct (lastSession (trimmed state)) eqn:E;
    destruct (lastAnalysis (trimmed state)) eqn:E';
    unfold trimmed in *; destruct (8 <? _)%nat; cbn in *;
    rewrite ?E, ?E'; reflexivity.
Qed.

(** A loaded state never has an [undefined] [lastAnalysis]. *)
Lemma loadStudyState_lastAnalysis (env : Env) (uid : string) :
  lastAnalysis (loadStudyState env uid) <> Undefined.
Proof.
  unfold loadStudyState. destruct (STUDY_STATE_KV env !! kv_key uid) as [stored|];
    [|discriminate].
  cbn. destruct (stored_lastAnalysis stored); discriminate.
Qed.

(** X4.  Saving and loading is a round trip up to two changes the code
    makes on the way: the next load of the same user returns the saved
    state with [recentHistory] cut to its last eight entries and with an
    [undefined] [lastAnalysis] read back as [null]; the record of any
    other user is read as before. *)
Theorem save_then_load :
  forall (env env' : Env) (uid : string) (state : UserState),
    loadStudyState (on_kv (saveStudyState env uid state) env') uid = reloaded state
    /\ (forall other, other <> uid ->
          loadStudyState (on_kv (saveStudyState env uid state) env') other
          = loadStudyState env other).
Proof.
  intros env env' uid state. split; [apply loadStudyState_after_save|].
  intros other Hne. unfold loadStudyState, saveStudyState.
  cbn [STUDY_STATE_KV on_kv]. rewrite lookup_insert_ne; [reflexivity|].
  intros E. apply kv_key_inj in E. congruence.
Qed.

(** X5.  Saving a state that has just been loaded, loading it and saving
    it again writes the same record: after one save the namespace is a
    fixed point of load-then-save. *)
Theorem resave_is_stable :
  forall (env : Env) (uid : string),
    let kv := saveStudyState env uid (loadStudyState env uid) in
    saveStudyState (on_kv kv env) uid (loadStudyState (on_kv kv env) uid) = kv.
Proof.
  intros env uid kv. subst kv. rewrite loadStudyState_after_save.
  unfold saveStudyState. cbn [STUDY_STATE_KV on_kv].
  rewrite insert_insert_eq. f_equal.
  assert (reloaded (loadStudyState env uid) = trimmed (loadStudyState env uid)) as ->.
  { unfold reloaded.
    pose proof (loadStudyState_lastAnalysis env uid) as Hla.
    assert (lastAnalysis (trimmed (loadStudyState env uid))
            = lastAnalysis (loadStudyState env uid)) as Ht
      by (unfold trimmed; destruct (8 <? _)%nat; reflexivity).
    destruct (lastAnalysis (loadStudyState env uid)) eqn:E; [congruence| |];
      unfold set_lastAnalysis; rewrite <- Ht;
      destruct (trimmed (loadStudyState env uid)); reflexivity. }
  now rewrite trimmed_idempotent.
Qed.

(** X6.  After a request to [/debug/reset] (with any method but OPTIONS)
    the next load returns exactly the default state, whatever was stored
    and although the record that is written has neither [profile] nor
    [lastAnalysis]. *)
Theorem reset_then_load_is_defaults :
  forall (JSON_stringify : list Session -> jsstring) (request : Request) (env : Env),
    method request <> "OPTIONS"%string ->
    pathname request = "/debug/reset"%string ->
    exists kv,
      fetch JSON_stringify request env = Ok ({| status := 200; body := ResetBody |}, kv)
      /\ load kv = defaults
      /\ (forall env', loadStudyState (on_kv kv env') userId = defaults).
Proof.
  intros JSON_stringify request env Hm Hp. unfold fetch.
  apply String.eqb_neq in Hm. rewrite Hm, Hp. cbn [String.eqb Ascii.eqb Bool.eqb].
  cbn. eexists. split; [reflexivity|].
  unfold load, loadStudyState. cbn [STUDY_STATE_KV on_kv].
  rewrite lookup_insert_eq. split; reflexivity.
Qed.

Lemma reset_then_load_is_defaults_witness :
  exists kv,
    fetch count_sessions
      {| method := "GET"; pathname := "/debug/reset"; json_message := [] |}
      (env_of after_first_plan silent)
    = Ok ({| status := 200; body := ResetBody |}, kv)
    /\ load kv = defaults
    /\ (forall env', loadStudyState (on_kv kv env') userId = defaults).
Proof.
  apply reset_then_load_is_defaults; [discriminate | reflexivity].
Defined.

(** What a request can do to the namespace. *)
Lemma fetch_cases JSON_stringify (request : Request) (env : Env) response kv :
  fetch JSON_stringify request env = Ok (response, kv) ->
  kv = STUDY_STATE_KV env
  \/ (method request <> "OPTIONS"%string
      /\ pathname request = "/debug/reset"%string
      /\ kv = <[kv_key userId := reset_object]> (STUDY_STATE_KV env))
  \/ (method request = "POST"%string
      /\ pathname request = "/api/chat"%string
      /\ exists outcome,
           let state := loadStudyState env userId in
           run_action JSON_stringify (chooseAction state (json_message request)) state
             (json_message request) env = Ok outcome
           /\ response = {| status := 200;
                            body := ChatBody (reply outcome)
                                      (chooseAction state (json_message request)) |}
           /\ kv = saveStudyState env userId
                     (finalState state (json_message request) outcome)).
Proof.
  unfold fetch.
  destruct (String.eqb_spec (method request) "OPTIONS") as [|Hm];
    [intros [= _ <-]; now left|].
  destruct (String.eqb (pathname request) "/api/health");
    [intros [= _ <-]; now left|].
  destruct (String.eqb (pathname request) "/debug/state");
    [intros [= _ <-]; now left|].
  destruct (String.eqb_spec (pathname request) "/debug/reset") as [Hr|_].
  { intros [= _ <-]. right. left. auto. }
  destruct (String.eqb_spec (pathname request) "/api/chat") as [Hc|_];
    [|intros [= _ <-]; now left].
  destruct (String.eqb_spec (method request) "POST") as [Hp|_];
    [|intros [= _ <-]; now left].
  cbn [andb]. cbv zeta.
  destruct (run_action _ _ _ _ _) as [outcome|e] eqn:Hrun; [|discriminate].
  intros [= <- <-]. right. right. split; [exact Hp|]. split; [exact Hc|].
  exists outcome. cbv zeta. auto.
Qed.

(** X7.  A request only ever writes the record of the one user: every
    other key of the namespace holds after the request what it held
    before. *)
Theorem fetch_writes_one_key :
  forall (JSON_stringify : list Session -> jsstring) (request : Request) (env : Env)
         response kv (key : string),
    fetch JSON_stringify request env = Ok (response, kv) ->
    key <> kv_key userId ->
    kv !! key = STUDY_STATE_KV env !! key.
Proof.
  intros JSON_stringify request env response kv key Hfetch Hkey.
  apply fetch_cases in Hfetch
    as [->|[(_ & _ & ->)|(_ & _ & outcome & _ & _ & ->)]];
    [reflexivity| |]; unfold saveStudyState; now rewrite lookup_insert_ne.
Qed.

Lemma fetch_writes_one_key_witness :
  after_first_plan !! "user:someone-else"%string = None.
Proof.
  unfold after_first_plan.
  destruct (fetch count_sessions (chat (u "I want to study graphs"))
              (env_of ∅ (answers_in_response (u "- read chapter 1"))))
    as [[response kv]|e] eqn:Hfetch; [|reflexivity].
  rewrite (fetch_writes_one_key _ _ _ _ _ "user:someone-else"%string Hfetch);
    [reflexivity | discriminate].
Defined.

(** X8.  The namespace is written only by [/debug/reset] and by a POST to
    [/api/chat], and never by an OPTIONS request: a preflight to either
    path, a GET to [/api/chat], the health and state routes and unknown
    paths leave it as it was. *)
Theorem fetch_writes_only_on_reset_and_chat :
  forall (JSON_stringify : list Session -> jsstring) (request : Request) (env : Env)
         response kv,
    fetch JSON_stringify request env = Ok (response, kv) ->
    kv <> STUDY_STATE_KV env ->
    method request <> "OPTIONS"%string
    /\ (pathname request = "/debug/reset"%string
        \/ (pathname request = "/api/chat"%string /\ method request = "POST"%string)).
Proof.
  intros JSON_stringify request env response kv Hfetch Hne.
  apply fetch_cases in Hfetch as [->|[(Hm & Hp & _)|(Hm & Hp & _)]].
  - congruence.
  - auto.
  - split; [rewrite Hm; discriminate | auto].
Qed.

Lemma fetch_writes_only_on_reset_and_chat_witness :
  let request := {| method := "DELETE"; pathname := "/debug/reset"; json_message := [] |} in
  method request <> "OPTIONS"%string
  /\ (pathname request = "/debug/reset"%string
      \/ (pathname request = "/api/chat"%string /\ method request = "POST"%string)).
Proof.
  apply (fetch_writes_only_on_reset_and_chat count_sessions
           {| method := "DELETE"; pathname := "/debug/reset"; json_message := [] |}
           (env_of ∅ silent) {| status := 200; body := ResetBody |}
           (<[kv_key userId := reset_object]> ∅)).
  - reflexivity.
  - intros E. apply (f_equal (fun m : gmap string Stored => m !! kv_key userId)) in E.
    cbn [STUDY_STATE_KV env_of] in E.
    rewrite lookup_insert_eq, lookup_empty in E. discriminate.
Defined.

Lemma trimmed_eq (state : UserState) :
  trimmed state = set_recentHistory (slice_last 8 (recentHistory state)) state.
Proof.
  unfold trimmed. destruct (Nat.ltb_spec 8 (length (recentHistory state)));
    [reflexivity|].
  rewrite slice_last_short by assumption. now destruct state.
Qed.

Lemma reloaded_defined (state : UserState) :
  lastAnalysis state <> Undefined -> reloaded state = trimmed state.
Proof.
  intros Hla. unfold reloaded. rewrite trimmed_eq.
  unfold set_lastAnalysis, set_recentHistory. cbn.
  destruct (lastAnalysis state); [congruence| |]; reflexivity.
Qed.

Lemma load_after_save (env : Env) (state : UserState) :
  load (saveStudyState env userId state) = reloaded state.
Proof.
  exact (loadStudyState_after_save env
           {| STUDY_STATE_KV := ∅; AI_run := fun _ _ _ => None;
              Date_now := fun _ => 0%Z |} userId state).
Qed.

(** ** More on the router *)

Lemma chooseAction_revise_plan (state : UserState) (message : jsstring) :
  chooseAction state message = revise_plan ->
  exists current, lastSession state = Some current.
Proof.
  unfold chooseAction. destruct (lastSession state) as [s|]; [eauto|].
  cbn [truthy]. rewrite !andb_false_r.
  repeat match goal with |- context [if ?b then _ else _] => destruct b end;
    discriminate.
Qed.

(** X9.  [chooseAction] returns [log_outcome] or [revise_plan] only for a
    state that has a session in [lastSession]; without one, a report or a
    change request falls through to the later rules. *)
Theorem chooseAction_needs_session :
  forall (state : UserState) (message : jsstring),
    chooseAction state message = log_outcome
    \/ chooseAction state message = revise_plan ->
    exists current, lastSession state = Some current.
Proof.
  intros state message [H|H].
  - now apply chooseAction_log_outcome in H.
  - now apply chooseAction_revise_plan in H.
Qed.

Lemma chooseAction_needs_session_witness :
  exists current, lastSession planned_state = Some current.
Proof.
  apply (chooseAction_needs_session planned_state (u "I finished the first part")).
  left. vm_compute. reflexivity.
Defined.

Lemma text_or_nonempty (aiResult : option AiResult) (fallback : jsstring) :
  fallback <> [] -> text_or aiResult fallback <> [].
Proof.
  intros Hf. unfold text_or, or_else.
  destruct (opt_chain result aiResult) as [| |[|c s]];
    destruct (opt_chain response aiResult) as [| |[|c' s']];
    try exact Hf; discriminate.
Qed.

(** X10.  Whatever the model returns, no handler replies with the empty
    string: the reply is the non-empty text of the model or the fallback
    of the handler. *)
Theorem reply_is_never_empty :
  forall (JSON_stringify : list Session -> jsstring) (chosen : Action)
         (state : UserState) (message : jsstring) (env : Env) (outcome : Outcome),
    run_action JSON_stringify chosen state message env = Ok outcome ->
    reply outcome <> [].
Proof.
  intros JSON_stringify chosen state message env outcome.
  destruct chosen; cbn [run_action].
  - intros [= <-]. now apply text_or_nonempty.
  - destruct (logOutcome_total state message env) as (updated & -> & _).
    intros [= <-]. now apply text_or_nonempty.
  - intros [= <-]. now apply text_or_nonempty.
  - intros [= <-]. now apply text_or_nonempty.
  - intros [= <-]. now apply text_or_nonempty.
  - intros [= <-]. now apply text_or_nonempty.
Qed.

Lemma reply_is_never_empty_witness :
  reply (handleGeneralChat defaults (u "hello")
           (env_of ∅ (fun _ _ _ => Some {| result := Val []; response := Null |})))
  <> [].
Proof.
  apply (reply_is_never_empty count_sessions general_chat defaults (u "hello")
           (env_of ∅ (fun _ _ _ => Some {| result := Val []; response := Null |}))).
  reflexivity.
Defined.

(** X11.  A chat request that is classified [direct_answer] or
    [general_chat] changes nothing of the stored state but the history:
    the next load returns the state this request loaded, with the message
    and the reply appended to [recentHistory] and the result cut to its
    last eight entries. *)
Theorem chat_without_plan_change :
  forall (JSON_stringify : list Session -> jsstring) (message : jsstring) (env : Env),
    let state := loadStudyState env userId in
    chooseAction state message = direct_answer
    \/ chooseAction state message = general_chat ->
    exists response kv,
      fetch JSON_stringify (chat message) env = Ok (response, kv)
      /\ load kv
         = set_recentHistory
             (slice_last 8
                (recentHistory state
                   ++ [ {| role := user; content := message |};
                        {| role := assistant; content := reply_of response |} ]))
             state.
Proof.
  intros JSON_stringify message env state Hact.
  destruct (fetch_chat JSON_stringify message env) as (outcome & Hrun & Hfetch).
  fold state in Hrun, Hfetch.
  eexists. eexists. split; [exact Hfetch|].
  rewrite load_after_save.
  assert (Hnew : newState outcome = state).
  { destruct Hact as [E|E]; rewrite E in Hrun; cbn [run_action] in Hrun;
      injection Hrun as <-; reflexivity. }
  rewrite reloaded_defined.
  - rewrite trimmed_eq. unfold finalState. rewrite Hnew. reflexivity.
  - unfold finalState. rewrite Hnew. cbn. apply loadStudyState_lastAnalysis.
Qed.

Lemma chat_without_plan_change_witness :
  exists response kv,
    fetch count_sessions (chat (u "What is a heap?")) (env_of after_first_plan silent)
    = Ok (response, kv)
    /\ load kv
       = set_recentHistory
           (slice_last 8
              (recentHistory (load after_first_plan)
                 ++ [ {| role := user; content := u "What is a heap?" |};
                      {| role := assistant; content := reply_of response |} ]))
           (load after_first_plan).
Proof.
  apply (chat_without_plan_change count_sessions (u "What is a heap?")
           (env_of after_first_plan silent)).
  left. vm_compute. reflexivity.
Defined.

Lemma drop_while_spaces (s : jsstring) : spaces s -> drop_while is_space s = [].
Proof. induction 1 as [|c s Hc Hs IH]; [reflexivity|]. cbn. now rewrite Hc. Qed.

Lemma trim_spaces (s : jsstring) : spaces s -> trim s = [].
Proof.
  intros Hs. unfold trim, trimStart, trimEnd. now rewrite (drop_while_spaces s Hs).
Qed.

Lemma test_words_spaces alts ic (s : jsstring) :
  forallb wordy_alt alts = true -> spaces s -> test (words alts ic) s = false.
Proof.
  intros Halts Hs.
  replace s with (s ++ [] ++ []) by now rewrite !app_nil_r.
  rewrite test_words_pad; [|exact Halts|now apply spaces_nonword|constructor].
  unfold test, words. cbn [nodes ignoreCase]. rewrite search_eq.
  now rewrite match_here_words_nil.
Qed.

(** X12.  A message that is empty or made of white space only is
    [general_chat] in every state. *)
Theorem blank_message_is_general_chat :
  forall (state : UserState) (message : jsstring),
    spaces message -> chooseAction state message = general_chat.
Proof.
  intros state message Hs. unfold chooseAction.
  replace (match message with [] => [] | _ :: _ => message end) with message
    by (destruct message; reflexivity).
  rewrite (toLowerCase_spaces message Hs).
  unfold re_analyze, re_outcome, re_planning, re_revision, re_study.
  rewrite !test_words_spaces by (reflexivity || exact Hs). cbn [andb].
  assert (isDirectQuestion message = false) as ->.
  { unfold isDirectQuestion. destruct message; [reflexivity|].
    now rewrite (trim_spaces _ Hs). }
  now destruct (test re_affirmation message).
Qed.

Lemma blank_message_is_general_chat_witness :
  chooseAction planned_state [32; 9; 10; 160] = general_chat.
Proof.
  apply blank_message_is_general_chat.
  repeat constructor.
Defined.

Lemma drop_while_head {A} (p : A -> bool) (l : list A) x r :
  drop_while p l = x :: r -> p x = false.
Proof.
  induction l as [|y l IH]; cbn; [discriminate|].
  destruct (p y) eqn:E; [exact IH|]. now intros [= <- <-].
Qed.

Lemma drop_while_idempotent {A} (p : A -> bool) (l : list A) :
  drop_while p (drop_while p l) = drop_while p l.
Proof.
  destruct (drop_while p l) as [|x r] eqn:E; [reflexivity|].
  cbn. now rewrite (drop_while_head p l x r E).
Qed.

(** Trimming twice is trimming once. *)
Lemma trim_idempotent (s : jsstring) : trim (trim s) = trim s.
Proof.
  unfold trim. set (a := trimStart s).
  assert (Hstart : trimStart (trimEnd a) = trimEnd a).
  { unfold trimEnd.
    destruct (drop_while_split is_space (rev a)) as (pre & E & _).
    apply (f_equal (@rev N)) in E. rewrite rev_involutive, rev_app_distr in E.
    destruct (rev (drop_while is_space (rev a))) as [|c b] eqn:Eb; [reflexivity|].
    unfold trimStart. cbn.
    assert (is_space c = false) as ->; [|reflexivity].
    subst a. unfold trimStart in E. cbn in E.
    now apply (drop_while_head is_space s c (b ++ rev pre)). }
  rewrite Hstart. unfold trimEnd. now rewrite rev_involutive, drop_while_idempotent.
Qed.

(** The body of [isDirectQuestion], on the trimmed message. *)
Lemma isDirectQuestion_trimmed (message : jsstring) :
  isDirectQuestion message
  = (if test (words (map lit planning_words) true) (trim message) then false
     else test re_question_end (trim message)
          && negb (test (words (map lit pronoun_words) true) (trim message))).
Proof. destruct message; reflexivity. Qed.

Lemma isDirectQuestion_trim (message : jsstring) :
  isDirectQuestion (trim message) = isDirectQuestion message.
Proof. now rewrite !isDirectQuestion_trimmed, trim_idempotent. Qed.

(** A text that begins and ends with a word character is not padded. *)
Lemma unpadded (lead a trail : jsstring) :
  nonword lead -> nonword trail ->
  is_word_opt (head (lead ++ a ++ trail)) = true ->
  is_word_opt (last (lead ++ a ++ trail)) = true ->
  lead = [] /\ trail = [].
Proof.
  intros Hl Ht Hh Hlast. split.
  - destruct Hl as [|w lead Hw _]; [reflexivity|]. cbn in Hh. congruence.
  - destruct trail as [|w trail] using rev_ind; [reflexivity|].
    rewrite !app_assoc, last_snoc in Hlast. cbn in Hlast.
    apply Forall_app in Ht as [_ Ht]. inversion Ht; subst. congruence.
Qed.

Lemma affirmation_unpadded (message : jsstring) :
  In (toLowerCase message) (map u affirmations) ->
  toLowerCase (trim message) = toLowerCase message.
Proof.
  intros Hin.
  destruct (toLowerCase_trim message) as (lead & trail & E & Hl & Ht).
  assert (is_word_opt (head (toLowerCase message)) = true
          /\ is_word_opt (last (toLowerCase message)) = true) as [Hh Hlast].
  { revert Hin. generalize (toLowerCase message). intros text Hin.
    vm_compute in Hin.
    repeat destruct Hin as [<-|Hin]; try contradiction; vm_compute; tauto. }
  rewrite E in Hh, Hlast.
  destruct (unpadded lead _ trail Hl Ht Hh Hlast) as [-> ->].
  rewrite E. cbn. now rewrite app_nil_r.
Qed.

Lemma test_affirmation (text : jsstring) :
  test re_affirmation text = true <-> In text (map u affirmations).
Proof.
  unfold re_affirmation, lit. rewrite <- (map_map u (map Ch)). apply test_anchored.
Qed.

(** X13.  White space around the message never changes the action:
    [chooseAction] returns for a message what it returns for the trimmed
    message, in every state, although only [isDirectQuestion] trims. *)
Theorem chooseAction_ignores_surrounding_space :
  forall (state : UserState) (message : jsstring),
    chooseAction state (trim message) = chooseAction state message.
Proof.
  intros state message. unfold chooseAction.
  replace (match message with [] => [] | _ :: _ => message end) with message
    by (destruct message; reflexivity).
  replace (match trim message with [] => [] | _ :: _ => trim message end)
    with (trim message) by (destruct (trim message); reflexivity).
  rewrite isDirectQuestion_trim.
  unfold re_analyze, re_outcome, re_planning, re_revision, re_study.
  do 5 (rewrite (test_words_trim _ message) by reflexivity).
  destruct (test re_affirmation (toLowerCase (trim message))) eqn:Et;
    destruct (test re_affirmation (toLowerCase message)) eqn:El; try reflexivity.
  - apply test_affirmation in Et.
    pose proof (affirmation_not_question message Et) as Hq.
    apply affirmation_no_keyword in Et as (H1 & H2 & H3 & H4 & H5 & _).
    unfold re_analyze, re_outcome, re_planning, re_revision, re_study in *.
    now rewrite H1, H2, H3, H4, H5, Hq.
  - apply test_affirmation in El.
    rewrite (affirmation_unpadded message El) in Et.
    apply test_affirmation in El. congruence.
Qed.

(** ** The router as a rule table *)

Module Ladder.

Import Spec DirectQuestion.

Lemma in_expand_cons (a : atom) (rest : list atom) (mid : jsstring) :
  In mid (expand (a :: rest))
  <-> exists c mid', mid = c :: mid' /\ atom_matches false a c = true
                     /\ In mid' (expand rest).
Proof.
  destruct a as [p|cs]; cbn [expand atom_matches]; unfold canon; cbn [andb].
  - rewrite in_map_iff. split.
    + intros (mid' & <- & Hin). exists p, mid'. now rewrite N.eqb_refl.
    + intros (c & mid' & -> & E & Hin). apply N.eqb_eq in E as <-. now exists mid'.
  - rewrite in_flat_map. split.
    + intros (c & Hc & Hin). apply in_map_iff in Hin as (mid' & <- & Hin).
      exists c, mid'. split; [reflexivity|]. split; [|exact Hin].
      apply existsb_exists. exists c. now rewrite N.eqb_refl.
    + intros (c & mid' & -> & E & Hin).
      apply existsb_exists in E as (p & Hp & E). apply N.eqb_eq in E as <-.
      exists p. split; [exact Hp|]. now apply in_map.
Qed.

(** Consuming an alternative, case mattering, splits off one of the
    strings it accepts. *)
Lemma match_atoms_exact alt prev s prev' rest :
  match_atoms false alt prev s = Some (prev', rest)
  <-> exists mid, s = mid ++ rest /\ In mid (expand alt) /\ prev' = last_or prev mid.
Proof.
  revert prev s. induction alt as [|a alt IH]; intros prev s.
  - cbn. split.
    + intros [= <- <-]. exists []. auto.
    + intros (mid & -> & [<-|[]] & ->). reflexivity.
  - cbn [match_atoms]. destruct s as [|c s].
    + split; [discriminate|].
      intros (mid & E & Hin & _). apply in_expand_cons in Hin as (? & ? & -> & _).
      discriminate.
    + destruct (atom_matches false a c) eqn:Ea.
      * rewrite IH. split.
        -- intros (mid & -> & Hin & ->). exists (c :: mid).
           rewrite last_or_cons. split; [reflexivity|]. split; [|reflexivity].
           apply in_expand_cons. eauto.
        -- intros (mid & E & Hin & ->).
           apply in_expand_cons in Hin as (c' & mid' & -> & _ & Hin).
           injection E as <- ->. exists mid'. now rewrite last_or_cons.
      * split; [discriminate|].
        intros (mid & E & Hin & _).
        apply in_expand_cons in Hin as (c' & mid' & -> & Ec & _).
        injection E as <- _. congruence.
Qed.

(** [/\b(...)\b/] without the flag [i] finds a match exactly when the
    text contains one of the accepted strings as a word. *)
Lemma test_words_exact alts (s : jsstring) :
  test (words alts false) s = true
  <-> exists w, In w (flat_map expand alts) /\ has_word w s.
Proof.
  unfold test, words. cbn [nodes ignoreCase]. rewrite search_split.
  setoid_rewrite last_or_None. split.
  - intros (pre & post & -> & H). rewrite match_here_words in H.
    apply andb_true_iff in H as [Hb H].
    apply existsb_exists in H as (alt & Hin & H). unfold alt_then_boundary in H.
    destruct (match_atoms false alt (last pre) post) as [[prev' rest]|] eqn:E;
      [|discriminate].
    apply match_atoms_exact in E as (mid & -> & Hm & ->).
    exists mid. split; [apply in_flat_map; eauto|]. exists pre, rest.
    unfold word_edge. split; [reflexivity|].
    rewrite <- last_or_last. split; now apply xorb_true_neq.
  - intros (w & Hin & pre & post & -> & H1 & H2).
    apply in_flat_map in Hin as (alt & Hin & Hw).
    exists pre, (w ++ post). split; [reflexivity|].
    rewrite match_here_words. apply andb_true_iff. split.
    + now apply xorb_true_neq.
    + apply existsb_exists. exists alt. split; [exact Hin|].
      unfold alt_then_boundary.
      assert (match_atoms false alt (last pre) (w ++ post)
              = Some (last_or (last pre) w, post)) as ->
        by (apply match_atoms_exact; now exists w).
      apply xorb_true_neq. unfold word_edge in H2.
      now rewrite <- last_or_last in H2.
Qed.

Lemma test_has_any alts (ws : list string) (s : jsstring) :
  flat_map expand alts = map u ws ->
  test (words alts false) s = true <-> has_any ws s.
Proof.
  intros E. rewrite test_words_exact, E. unfold has_any. split.
  - intros (w & Hin & H). apply in_map_iff in Hin as (w0 & <- & Hin). eauto.
  - intros (w & Hin & H). exists (u w). split; [now apply in_map | exact H].
Qed.

Lemma isDirectQuestion_iff (message : jsstring) :
  isDirectQuestion message = true <-> direct_question message.
Proof.
  unfold direct_question.
  assert (Hw : forall ws, (forall w, In w ws -> ~ contains_word (u w) (trim message))
                          <-> test (words (map lit ws) true) (trim message) = false).
  { intros ws. rewrite <- not_true_iff_false, test_words_spec. split.
    - intros H (w & Hin & Hc). exact (H w Hin Hc).
    - intros H w Hin Hc. apply H. now exists w. }
  rewrite !Hw, <- test_question_end_spec, isDirectQuestion_trimmed.
  unfold planning_words, pronoun_words.
  destruct (test (words _ true) (trim message));
    destruct (test re_question_end (trim message));
    destruct (test (words _ true) (trim message)); cbn; intuition congruence.
Qed.

Lemma first_match_unique rules otherwise a b :
  first_match rules otherwise a -> first_match rules otherwise b -> a = b.
Proof.
  induction rules as [|[condition r] rules IH]; cbn; [congruence|].
  intros [[Hc ->]|[Hn Ha]] [[Hc' ->]|[Hn' Hb]];
    [reflexivity | contradiction | contradiction | now apply IH].
Qed.

Lemma test_re_analyze text :
  has_any ["analyse"; "analyze"; "pattern"; "habit"; "trend"; "history"]%string text
  <-> test re_analyze text = true.
Proof. symmetry. now apply test_has_any. Qed.

Lemma test_re_outcome text :
  has_any ["finished"; "completed"; "done"; "did it"; "failed"; "stuck";
           "fell behind"]%string text
  <-> test re_outcome text = true.
Proof. symmetry. now apply test_has_any. Qed.

Lemma test_re_planning text :
  has_any ["plan"; "schedule"; "agenda"; "block"; "timetable"; "routine"]%string text
  <-> test re_planning text = true.
Proof. symmetry. now apply test_has_any. Qed.

Lemma test_re_revision text :
  has_any ["change"; "adjust"; "revise"; "modify"; "tweak"; "shorter";
           "longer"]%string text
  <-> test re_revision text = true.
Proof. symmetry. now apply test_has_any. Qed.

Lemma test_re_study text :
  has_any ["study"; "learn"; "review"; "prep"; "prepare"]%string text
  <-> test re_study text = true.
Proof. symmetry. now apply test_has_any. Qed.

Lemma chooseAction_first_match (state : UserState) (message : jsstring) :
  first_match (routing_rules state message) general_chat (chooseAction state message).
Proof.
  unfold routing_rules. cbv zeta. cbn [first_match].
  rewrite test_re_analyze, test_re_outcome, !test_re_planning, test_re_revision,
    test_re_study.
  rewrite <- isDirectQuestion_iff.
  change (In (toLowerCase message)
            (map u ["ok"; "okay"; "sure"; "fine"; "yes"; "go ahead"; "do it"]%string))
    with (In (toLowerCase message) (map u affirmations)).
  rewrite <- test_affirmation.
  unfold chooseAction.
  replace (match message with [] => [] | _ :: _ => message end) with message
    by (destruct message; reflexivity).
  assert (Hs : lastSession state <> None <-> truthy (lastSession state) = true)
    by (destruct (lastSession state); cbn; split; congruence).
  rewrite Hs.
  destruct (test re_analyze _); [left; auto|right; split; [discriminate|]].
  destruct (test re_outcome _), (truthy (lastSession state)); cbn [andb];
    try (left; now auto); (right; split; [intros [? ?]; discriminate|]).
  all: destruct (test re_planning _);
    try (left; now auto);
    try (right; split; [intros [? ?]; discriminate|]; left; now auto);
    (right; split; [intros [? ?]; discriminate|];
     right; split; [discriminate|]).
  all: destruct (test re_revision _); cbn [andb];
    try (left; now auto); (right; split; [intros [? ?]; discriminate|]).
  all: destruct (test re_affirmation _);
    try (left; now auto); (right; split; [discriminate|]).
  all: destruct (test re_study _);
    try (left; now auto); (right; split; [discriminate|]).
  all: destruct (isDirectQuestion message);
    try (left; now auto); (right; split; [discriminate|reflexivity]).
Qed.

End Ladder.

(** X14.  [chooseAction] is the first-match evaluation of a rule table over
    the lower-cased message: an analysis word; an outcome word with a
    session; a planning word (revise with a session, create without); a
    revision word with a session; the whole text being an affirmation; a
    study word; a direct question; otherwise [general_chat].  A word counts
    when it stands between two word boundaries.  The action is the one the
    table gives, and no other. *)
Theorem chooseAction_is_first_match :
  forall (state : UserState) (message : jsstring) (chosen : Action),
    Spec.first_match (Spec.routing_rules state message) general_chat chosen
    <-> chosen = chooseAction state message.
Proof.
  intros state message chosen. split.
  - intros H. apply (Ladder.first_match_unique _ _ _ _ H).
    apply Ladder.chooseAction_first_match.
  - intros ->. apply Ladder.chooseAction_first_match.
Qed.

(** ** Letter case *)

Module LetterCase.

Import Spec DirectQuestion.

(** Two code units with the same case folding are equal or are the two
    forms of one ASCII letter. *)
Lemma fold_case_eq (a b : N) :
  fold_case a = fold_case b ->
  a = b \/ ((65 <= a <= 90 \/ 97 <= a <= 122) /\ (65 <= b <= 90 \/ 97 <= b <= 122)).
Proof.
  unfold fold_case, is_upper, in_range.
  destruct (N.leb_spec 65 a), (N.leb_spec a 90), (N.leb_spec 65 b),
    (N.leb_spec b 90); cbn [andb]; lia.
Qed.

Ltac by_fold_case H :=
  apply fold_case_eq in H as [->|[Ha Hb]]; [reflexivity|];
  unfold is_word, is_space, is_upper, is_lower, is_digit, is_question_end,
    lower_unit, fold_case, in_range;
  cbn [existsb];
  destruct Ha, Hb; now decide_cmp.

Lemma fold_case_word a b : fold_case a = fold_case b -> is_word a = is_word b.
Proof. intros H. by_fold_case H. Qed.

Lemma fold_case_space a b : fold_case a = fold_case b -> is_space a = is_space b.
Proof. intros H. by_fold_case H. Qed.

Lemma fold_case_question_end a b :
  fold_case a = fold_case b -> is_question_end a = is_question_end b.
Proof. intros H. by_fold_case H. Qed.

Lemma lower_unit_letter a :
  65 <= a <= 90 \/ 97 <= a <= 122 -> lower_unit a = [fold_case a].
Proof.
  intros Ha. unfold lower_unit, fold_case, is_upper, in_range.
  destruct Ha; now decide_cmp.
Qed.

Lemma fold_case_lower_unit a b : fold_case a = fold_case b -> lower_unit a = lower_unit b.
Proof.
  intros H. destruct (fold_case_eq a b H) as [->|[Ha Hb]]; [reflexivity|].
  now rewrite (lower_unit_letter a Ha), (lower_unit_letter b Hb), H.
Qed.

Lemma same_word_toLowerCase (a b : jsstring) :
  same_word a b -> toLowerCase a = toLowerCase b.
Proof.
  unfold same_word, toLowerCase. revert b.
  induction a as [|c a IH]; intros [|d b]; cbn; try discriminate; [reflexivity|].
  intros [= Hc Hab]. now rewrite (fold_case_lower_unit c d Hc), (IH b Hab).
Qed.

Lemma same_word_drop_while (a b : jsstring) :
  same_word a b -> same_word (drop_while is_space a) (drop_while is_space b).
Proof.
  unfold same_word. revert b.
  induction a as [|c a IH]; intros [|d b]; cbn; try discriminate; [reflexivity|].
  intros [= Hc Hab]. rewrite (fold_case_space c d Hc).
  destruct (is_space d); [now apply IH | cbn; congruence].
Qed.

Lemma same_word_rev (a b : jsstring) : same_word a b -> same_word (rev a) (rev b).
Proof. unfold same_word. intros H. now rewrite !map_rev, H. Qed.

Lemma same_word_trim (a b : jsstring) : same_word a b -> same_word (trim a) (trim b).
Proof.
  intros H. unfold trim, trimEnd, trimStart.
  now apply same_word_rev, same_word_drop_while, same_word_rev, same_word_drop_while.
Qed.

Lemma same_word_head (a b : jsstring) :
  same_word a b -> is_word_opt (head a) = is_word_opt (head b).
Proof.
  unfold same_word. destruct a, b; cbn; try discriminate; [reflexivity|].
  intros [= Hc _]. now apply fold_case_word.
Qed.

Lemma same_word_last_units (a b : jsstring) :
  same_word a b ->
  match last a, last b with
  | Some x, Some y => fold_case x = fold_case y
  | None, None => True
  | _, _ => False
  end.
Proof.
  unfold same_word. revert b.
  induction a as [|c a IH]; intros [|d b]; cbn [map]; try discriminate;
    [intros _; exact I|].
  intros [= Hc Hab]. destruct a as [|c2 a2], b as [|d2 b2]; try discriminate.
  - exact Hc.
  - apply (IH (d2 :: b2) Hab).
Qed.

Lemma same_word_last (a b : jsstring) :
  same_word a b -> is_word_opt (last a) = is_word_opt (last b).
Proof.
  intros H. apply same_word_last_units in H.
  destruct (last a), (last b); try contradiction; [|reflexivity].
  now apply fold_case_word.
Qed.

Lemma same_word_app (a1 a2 b1 b2 : jsstring) :
  same_word a1 b1 -> same_word a2 b2 -> same_word (a1 ++ a2) (b1 ++ b2).
Proof. unfold same_word. intros H1 H2. now rewrite !map_app, H1, H2. Qed.

Lemma same_word_split (a b1 b2 : jsstring) :
  same_word a (b1 ++ b2) ->
  exists a1 a2, a = a1 ++ a2 /\ same_word a1 b1 /\ same_word a2 b2.
Proof.
  unfold same_word. rewrite map_app. intros H.
  apply map_eq_app in H as (a1 & a2 & -> & H1 & H2). eauto.
Qed.

(** Containing a word, case-insensitively, does not depend on the case of
    the text. *)
Lemma contains_word_same (w a b : jsstring) :
  same_word a b -> contains_word w b -> contains_word w a.
Proof.
  intros Hab (pre & mid & post & -> & Hm & H1 & H2).
  apply same_word_split in Hab as (pre' & rest & -> & Hpre & Hrest).
  apply same_word_split in Hrest as (mid' & post' & -> & Hmid & Hpost).
  exists pre', mid', post'. split; [reflexivity|].
  split; [unfold same_word in *; congruence|].
  unfold word_edge in *.
  rewrite (same_word_last _ _ Hpre),
    (same_word_head _ _ (same_word_app _ _ _ _ Hmid Hpost)),
    (same_word_last _ _ (same_word_app _ _ _ _ Hpre Hmid)),
    (same_word_head _ _ Hpost).
  split; assumption.
Qed.

Lemma test_words_same (ws : list string) (a b : jsstring) :
  same_word a b ->
  test (words (map lit ws) true) a = test (words (map lit ws) true) b.
Proof.
  intros Hab.
  assert (Hba : same_word b a) by (unfold same_word in *; congruence).
  destruct (test (words (map lit ws) true) a) eqn:Ea,
    (test (words (map lit ws) true) b) eqn:Eb; try reflexivity.
  - apply test_words_spec in Ea as (w & Hin & Hc).
    assert (test (words (map lit ws) true) b = true); [|congruence].
    apply test_words_spec. exists w. split; [exact Hin|].
    now apply (contains_word_same _ b a).
  - apply test_words_spec in Eb as (w & Hin & Hc).
    assert (test (words (map lit ws) true) a = true); [|congruence].
    apply test_words_spec. exists w. split; [exact Hin|].
    now apply (contains_word_same _ a b).
Qed.

Lemma test_question_end_same (a b : jsstring) :
  same_word a b -> test re_question_end a = test re_question_end b.
Proof.
  intros Hab. rewrite !test_question_end.
  apply same_word_last_units in Hab.
  destruct (last a), (last b); try contradiction; [|reflexivity].
  now apply fold_case_question_end.
Qed.

Lemma isDirectQuestion_same (a b : jsstring) :
  same_word a b -> isDirectQuestion a = isDirectQuestion b.
Proof.
  intros Hab. apply same_word_trim in Hab. rewrite !isDirectQuestion_trimmed.
  now rewrite !(test_words_same _ _ _ Hab), (test_question_end_same _ _ Hab).
Qed.

End LetterCase.

(** X15.  The router does not look at the case of ASCII letters: two
    messages that differ only in the case of their letters get the same
    action in every state. *)
Theorem chooseAction_ignores_case :
  forall (state : UserState) (message message' : jsstring),
    Spec.same_word message message' ->
    chooseAction state message = chooseAction state message'.
Proof.
  intros state message message' H. unfold chooseAction.
  replace (match message with [] => [] | _ :: _ => message end) with message
    by (destruct message; reflexivity).
  replace (match message' with [] => [] | _ :: _ => message' end) with message'
    by (destruct message'; reflexivity).
  now rewrite (LetterCase.same_word_toLowerCase _ _ H),
    (LetterCase.isDirectQuestion_same _ _ H).
Qed.

Lemma chooseAction_ignores_case_witness :
  chooseAction planned_state (u "I FINISHED the Plan")
  = chooseAction planned_state (u "i finished THE plan").
Proof.
  apply chooseAction_ignores_case. vm_compute. reflexivity.
Defined.

(** ** Invariants of the stored state *)

Lemma converse_total JSON_stringify kv requests :
  exists kv' turns, converse JSON_stringify kv requests = Ok (kv', turns).
Proof.
  revert kv. induction requests as [|[env message] rest IH]; intros kv.
  - cbn. eauto.
  - rewrite converse_cons.
    destruct (fetch_chat JSON_stringify message (on_kv kv env)) as (outcome & _ & ->).
    destruct (IH (saveStudyState (on_kv kv env) userId
                    (finalState (loadStudyState (on_kv kv env) userId) message outcome)))
      as (kv' & turns & ->).
    eauto.
Qed.

Lemma run_action_appends JSON_stringify chosen state message env outcome :
  run_action JSON_stringify chosen state message env = Ok outcome ->
  exists added,
    map erase_note (sessions (newState outcome))
    = map erase_note (sessions state) ++ added
    /\ (length added <= 1)%nat.
Proof.
  destruct chosen; cbn [run_action].
  - intros [= <-]. exists []. split; [cbn; now rewrite app_nil_r | cbn; lia].
  - destruct (logOutcome_effect state message env)
      as (o & -> & _ & Hnil & Happ & _).
    intros [= <-]. exists []. rewrite app_nil_r. split; [|cbn; lia].
    destruct (sessions state) as [|final older _] eqn:E using rev_ind.
    + now rewrite Hnil.
    + rewrite (Happ older final eq_refl), !map_app. reflexivity.
  - intros [= <-]. eexists. cbn. rewrite map_app. split; [reflexivity|cbn; lia].
  - intros [= <-]. eexists. cbn. rewrite map_app. split; [reflexivity|cbn; lia].
  - intros [= <-]. exists []. split; [cbn; now rewrite app_nil_r | cbn; lia].
  - intros [= <-]. exists []. split; [cbn; now rewrite app_nil_r | cbn; lia].
Qed.

(** X16.  The chat endpoint only ever appends to the log: after any
    conversation, from any stored record, the sessions that were in the log
    are still there, in the same places and with the same id, timestamp,
    goal, action and plan (only an [outcomeNote] may have changed), followed
    by at most one new session per request. *)
Theorem sessions_log_is_append_only :
  forall (JSON_stringify : list Session -> jsstring) (kv : gmap string Stored)
         (requests : list (Env * jsstring)),
    exists kv' turns added,
      converse JSON_stringify kv requests = Ok (kv', turns)
      /\ map erase_note (sessions (load kv'))
         = map erase_note (sessions (load kv)) ++ added
      /\ (length added <= length requests)%nat.
Proof.
  intros JSON_stringify kv requests. revert kv.
  induction requests as [|[env message] rest IH]; intros kv.
  - exists kv, [], []. cbn. now rewrite app_nil_r.
  - rewrite converse_cons.
    destruct (fetch_chat JSON_stringify message (on_kv kv env))
      as (outcome & Hrun & ->).
    set (kv1 := saveStudyState _ _ _).
    destruct (IH kv1) as (kv' & turns & added & -> & Hlog & Hlen).
    destruct (run_action_appends _ _ _ _ _ _ Hrun) as (first & Hfirst & Hone).
    exists kv'. eexists. exists (first ++ added). split; [reflexivity|].
    split; [|rewrite length_app; cbn; lia].
    rewrite Hlog. subst kv1.
    destruct (load_saveStudyState (on_kv kv env)
                (finalState (loadStudyState (on_kv kv env) userId) message outcome))
      as (_ & _ & ->).
    cbn [sessions finalState set_recentHistory]. rewrite Hfirst.
    now rewrite app_assoc.
Qed.

Lemma transcript_snoc (messages replies : list jsstring) (m r : jsstring) :
  length messages = length replies ->
  Spec.transcript messages replies
    ++ [ {| role := user; content := m |}; {| role := assistant; content := r |} ]
  = Spec.transcript (messages ++ [m]) (replies ++ [r]).
Proof.
  revert replies. induction messages as [|m0 ms IH]; intros [|r0 rs]; cbn;
    try discriminate; [reflexivity|].
  intros [= H]. now rewrite IH.
Qed.

Lemma transcript_length (messages replies : list jsstring) :
  length messages = length replies ->
  length (Spec.transcript messages replies) = (2 * length messages)%nat.
Proof.
  revert replies. induction messages as [|m0 ms IH]; intros [|r0 rs]; cbn;
    try discriminate; [reflexivity|].
  intros [= H]. rewrite (IH rs H). lia.
Qed.

(** X17.  Starting with nothing stored, the stored history always consists
    of whole exchanges: it is a sequence of at most four pairs, each a
    user turn followed by the assistant turn that answered it, so the cut
    to eight entries never separates a message from its reply. *)
Theorem history_is_whole_exchanges :
  forall (JSON_stringify : list Session -> jsstring) (kv : gmap string Stored),
    reachable JSON_stringify kv ->
    exists messages replies,
      length messages = length replies
      /\ (length messages <= 4)%nat
      /\ recentHistory (load kv) = Spec.transcript messages replies.
Proof.
  intros JSON_stringify kv Hreach.
  induction Hreach as [|request env response kv Hreach IH Hfetch].
  - exists [], []. repeat split. cbn. lia.
  - apply fetch_cases in Hfetch
      as [->|[(_ & _ & ->)|(_ & _ & outcome & _ & _ & ->)]].
    + exact IH.
    + exists [], []. split; [reflexivity|]. split; [cbn; lia|].
      unfold load, loadStudyState. cbn [STUDY_STATE_KV].
      now rewrite lookup_insert_eq.
    + destruct IH as (ms & rs & Hlen & Hfour & Hh).
      match goal with |- context [saveStudyState env userId ?s] =>
        destruct (load_saveStudyState env s) as (Hs & _) end.
      cbv zeta in Hs. setoid_rewrite Hs. clear Hs.
      rewrite trimmed_recentHistory. cbn [recentHistory finalState set_recentHistory].
      rewrite loadStudyState_kv, Hh, (transcript_snoc _ _ _ _ Hlen).
      destruct (Nat.eq_dec (length ms) 4%nat) as [E4|Hne].
      * destruct ms as [|m0 ms], rs as [|r0 rs]; try discriminate.
        exists (ms ++ [json_message request]), (rs ++ [reply outcome]).
        cbn in Hlen, E4. rewrite !length_app. cbn [length].
        split; [lia|]. split; [lia|].
        unfold slice_last. cbn [app Spec.transcript length].
        rewrite transcript_length by (rewrite !length_app; cbn; lia).
        rewrite length_app. cbn [length].
        replace (S (S (2 * (length ms + 1))) - 8)%nat with 2%nat by lia.
        reflexivity.
      * exists (ms ++ [json_message request]), (rs ++ [reply outcome]).
        rewrite !length_app. cbn [length]. split; [lia|]. split; [lia|].
        apply slice_last_short.
        rewrite transcript_length by (rewrite !length_app; cbn; lia).
        rewrite length_app. cbn. lia.
Qed.

Lemma history_is_whole_exchanges_witness :
  exists messages replies,
    length messages = length replies
    /\ (length messages <= 4)%nat
    /\ recentHistory (load after_first_plan) = Spec.transcript messages replies.
Proof.
  exact (history_is_whole_exchanges count_sessions after_first_plan
           after_first_plan_reachable).
Defined.

Lemma run_action_complete JSON_stringify state message env outcome :
  all_complete state ->
  run_action JSON_stringify (chooseAction state message) state message env = Ok outcome ->
  all_complete (newState outcome).
Proof.
  intros [Hlog Hlast]. destruct (chooseAction state message) eqn:E; cbn [run_action].
  - intros [= <-]. now split.
  - destruct (chooseAction_log_outcome _ _ E) as (current & Hcur).
    destruct (logOutcome_effect state message env)
      as (o & -> & _ & Hnil & Happ & Hl).
    intros [= <-].
    assert (Hset : forall s, complete s -> complete (set_outcomeNote message s)).
    { intros s (H1 & H2 & H3 & H4 & H5 & _).
      repeat split; try assumption; discriminate. }
    split.
    + destruct (sessions state) as [|final older _] eqn:Es using rev_ind.
      * rewrite Hnil; [constructor | reflexivity].
      * rewrite (Happ older final eq_refl).
        apply Forall_app in Hlog as [Ho Hf]. apply Forall_app. split; [exact Ho|].
        constructor; [|constructor]. apply Hset. now inversion Hf.
    + intros s Hs. rewrite (Hl _ Hcur) in Hs. injection Hs as <-.
      apply Hset. now apply Hlast.
  - intros [= <-].
    assert (Hnew : forall s, lastSession (newState (createPlan state message env)) = Some s
                             -> complete s).
    { intros s [= <-]. repeat split; cbn; eauto; discriminate. }
    split; [|exact Hnew]. cbn. apply Forall_app. split; [exact Hlog|].
    constructor; [|constructor]. now apply Hnew.
  - destruct (chooseAction_revise_plan _ _ E) as (current & Hcur).
    intros [= <-].
    destruct (Hlast _ Hcur) as (_ & _ & Hg & _ & _ & Hn).
    assert (Hnew : forall s, lastSession (newState (revisePlan state message env)) = Some s
                             -> complete s).
    { intros s [= <-]. cbn. rewrite Hcur. cbn.
      repeat split; cbn; eauto; discriminate. }
    split; [|exact Hnew]. cbn. apply Forall_app. split; [exact Hlog|].
    constructor; [|constructor]. now apply Hnew.
  - intros [= <-]. now split.
  - intros [= <-]. now split.
Qed.

(** X18.  Starting with nothing stored, every session the worker stores is
    complete: each element of the log, and [lastSession] when there is one,
    has an id, a timestamp, a goal, an action and a plan, and an
    [outcomeNote] that is null or a string.  The sessions without goal or
    without id that [revisePlan] and [logOutcome] build from a null
    [lastSession] are never stored, because the router does not choose
    these handlers then. *)
Theorem stored_sessions_are_complete :
  forall (JSON_stringify : list Session -> jsstring) (kv : gmap string Stored),
    reachable JSON_stringify kv ->
    Forall complete (sessions (load kv))
    /\ (forall current, lastSession (load kv) = Some current -> complete current).
Proof.
  intros JSON_stringify kv Hreach.
  induction Hreach as [|request env response kv Hreach IH Hfetch].
  - split; [constructor | discriminate].
  - apply fetch_cases in Hfetch
      as [->|[(_ & _ & ->)|(_ & _ & outcome & Hrun & _ & ->)]].
    + exact IH.
    + unfold load, loadStudyState. cbn [STUDY_STATE_KV].
      rewrite lookup_insert_eq. split; [constructor | discriminate].
    + cbv zeta in Hrun.
      match goal with |- context [saveStudyState env userId ?s] =>
        destruct (load_saveStudyState env s) as (_ & Hl & Hs) end.
      cbv zeta in Hl, Hs. rewrite Hl, Hs.
      apply (run_action_complete _ _ _ _ _ IH Hrun).
Qed.

Lemma stored_sessions_are_complete_witness :
  Forall complete (sessions (load after_first_plan))
  /\ (forall current, lastSession (load after_first_plan) = Some current ->
                      complete current).
Proof.
  exact (stored_sessions_are_complete count_sessions after_first_plan
           after_first_plan_reachable).
Defined.

(** ** The test script *)

Lemma chooseAction_by_presence (state : UserState) (message : jsstring) :
  chooseAction state message
  = chooseAction (if truthy (lastSession state) then planned_state else defaults) message.
Proof. unfold chooseAction. now destruct (lastSession state). Qed.

(** One chat request, seen from the next load. *)
Lemma chat_step JSON_stringify (message : jsstring) (env : Env) :
  let state := load (STUDY_STATE_KV env) in
  exists response kv outcome,
    fetch JSON_stringify (chat message) env = Ok (response, kv)
    /\ action_of response = Some (chooseAction state message)
    /\ run_action JSON_stringify (chooseAction state message) state message env
       = Ok outcome
    /\ sessions (load kv) = sessions (newState outcome)
    /\ lastSession (load kv) = lastSession (newState outcome)
    /\ recentHistory (load kv)
       = slice_last 8
           (recentHistory state
              ++ [ {| role := user; content := message |};
                   {| role := assistant; content := reply outcome |} ]).
Proof.
  intros state.
  destruct (fetch_chat JSON_stringify message env) as (outcome & Hrun & Hfetch).
  eexists. eexists. exists outcome. split; [exact Hfetch|].
  split; [reflexivity|]. split; [exact Hrun|].
  destruct (load_saveStudyState env
              (finalState (loadStudyState env userId) message outcome))
    as (-> & -> & ->).
  rewrite trimmed_recentHistory. repeat split.
Qed.

Lemma createPlan_session (state : UserState) (message : jsstring) (env : Env) :
  exists session,
    sessions (newState (createPlan state message env)) = sessions state ++ [session]
    /\ lastSession (newState (createPlan state message env)) = Some session
    /\ goal session = Some message /\ action session = Some create_plan
    /\ outcomeNote session = Null.
Proof. eexists. repeat split. Qed.

Lemma revisePlan_session (state : UserState) (message : jsstring) (env : Env)
    (previous : Session) :
  lastSession state = Some previous ->
  exists session,
    sessions (newState (revisePlan state message env)) = sessions state ++ [session]
    /\ lastSession (newState (revisePlan state message env)) = Some session
    /\ goal session = goal previous /\ action session = Some revise_plan
    /\ outcomeNote session = outcomeNote previous.
Proof. intros H. eexists. cbn. rewrite H. repeat split. Qed.

(** X19.  The run of the repository's test script: after a reset, the four
    messages of the script are classified [create_plan], [revise_plan],
    [log_outcome] and [analyze_pattern], whatever the model answers and
    whatever the clock shows; the log then holds two sessions, both with the
    first message as goal, the second one being [lastSession] and carrying
    the third message as [outcomeNote]; and the history holds the eight
    turns. *)
Theorem test_script_run :
  forall (JSON_stringify : list Session -> jsstring) (env0 e1 e2 e3 e4 : Env),
    exists kv0 r1 kv1 r2 kv2 r3 kv3 r4 kv4 s1 s2,
      fetch JSON_stringify reset_request env0
      = Ok ({| status := 200; body := ResetBody |}, kv0)
      /\ fetch JSON_stringify (chat script_create) (on_kv kv0 e1) = Ok (r1, kv1)
      /\ fetch JSON_stringify (chat script_revise) (on_kv kv1 e2) = Ok (r2, kv2)
      /\ fetch JSON_stringify (chat script_report) (on_kv kv2 e3) = Ok (r3, kv3)
      /\ fetch JSON_stringify (chat script_analyze) (on_kv kv3 e4) = Ok (r4, kv4)
      /\ map action_of [r1; r2; r3; r4]
         = [Some create_plan; Some revise_plan; Some log_outcome; Some analyze_pattern]
      /\ sessions (load kv4) = [s1; s2]
      /\ lastSession (load kv4) = Some s2
      /\ goal s1 = Some script_create /\ goal s2 = Some script_create
      /\ action s1 = Some create_plan /\ action s2 = Some revise_plan
      /\ outcomeNote s1 = Null /\ outcomeNote s2 = Val script_report
      /\ length (recentHistory (load kv4)) = 8%nat.
Proof.
  intros JSON_stringify env0 e1 e2 e3 e4.
  set (kv0 := <[kv_key userId := reset_object]> (STUDY_STATE_KV env0)).
  assert (H0 : load kv0 = defaults).
  { unfold load, loadStudyState, kv0. cbn [STUDY_STATE_KV].
    now rewrite lookup_insert_eq. }
  (* create_plan *)
  destruct (chat_step JSON_stringify script_create (on_kv kv0 e1))
    as (r1 & kv1 & o1 & Hf1 & Ha1 & Hrun1 & Hs1 & Hl1 & Hh1).
  cbn [STUDY_STATE_KV on_kv] in *. rewrite H0 in *.
  assert (E1 : chooseAction defaults script_create = create_plan)
    by (vm_compute; reflexivity).
  rewrite E1 in *. cbn [run_action] in Hrun1. injection Hrun1 as <-.
  destruct (createPlan_session defaults script_create (on_kv kv0 e1))
    as (s1 & Hc1 & Hc2 & Hg1 & Hact1 & Hn1).
  rewrite Hc1 in Hs1. rewrite Hc2 in Hl1.
  cbn [sessions recentHistory defaults app] in Hs1, Hh1.
  rewrite slice_last_short in Hh1 by (cbn; lia).
  (* revise_plan *)
  destruct (chat_step JSON_stringify script_revise (on_kv kv1 e2))
    as (r2 & kv2 & o2 & Hf2 & Ha2 & Hrun2 & Hs2 & Hl2 & Hh2).
  cbn [STUDY_STATE_KV on_kv] in *.
  assert (E2 : chooseAction (load kv1) script_revise = revise_plan).
  { rewrite chooseAction_by_presence, Hl1. vm_compute. reflexivity. }
  rewrite E2 in *. cbn [run_action] in Hrun2. injection Hrun2 as <-.
  destruct (revisePlan_session (load kv1) script_revise (on_kv kv1 e2) s1 Hl1)
    as (s2 & Hr1 & Hr2 & Hg2 & Hact2 & Hn2).
  rewrite Hr1, Hs1 in Hs2. rewrite Hr2 in Hl2. rewrite Hh1 in Hh2.
  rewrite slice_last_short in Hh2 by (cbn; lia).
  (* log_outcome *)
  destruct (chat_step JSON_stringify script_report (on_kv kv2 e3))
    as (r3 & kv3 & o3 & Hf3 & Ha3 & Hrun3 & Hs3 & Hl3 & Hh3).
  cbn [STUDY_STATE_KV on_kv] in *.
  assert (E3 : chooseAction (load kv2) script_report = log_outcome).
  { rewrite chooseAction_by_presence, Hl2. vm_compute. reflexivity. }
  rewrite E3 in *. cbn [run_action] in Hrun3.
  destruct (logOutcome_effect (load kv2) script_report (on_kv kv2 e3))
    as (o3' & Ho3 & _ & _ & Happ3 & Hlast3).
  rewrite Ho3 in Hrun3. injection Hrun3 as <-.
  rewrite (Happ3 [s1] s2 Hs2) in Hs3. rewrite (Hlast3 s2 Hl2) in Hl3.
  rewrite Hh2 in Hh3. rewrite slice_last_short in Hh3 by (cbn; lia).
  (* analyze_pattern *)
  destruct (chat_step JSON_stringify script_analyze (on_kv kv3 e4))
    as (r4 & kv4 & o4 & Hf4 & Ha4 & Hrun4 & Hs4 & Hl4 & Hh4).
  cbn [STUDY_STATE_KV on_kv] in *.
  assert (E4 : chooseAction (load kv3) script_analyze = analyze_pattern).
  { rewrite chooseAction_by_presence. destruct (truthy _); vm_compute; reflexivity. }
  rewrite E4 in *. cbn [run_action] in Hrun4. injection Hrun4 as <-.
  cbn [sessions lastSession newState analyzePattern set_lastAnalysis reply]
    in Hs4, Hl4.
  rewrite Hs3 in Hs4. rewrite Hl3 in Hl4. rewrite Hh3 in Hh4.
  exists kv0, r1, kv1, r2, kv2, r3, kv3, r4, kv4, s1, (set_outcomeNote script_report s2).
  split; [reflexivity|].
  split; [exact Hf1|]. split; [exact Hf2|]. split; [exact Hf3|]. split; [exact Hf4|].
  split; [cbn [map]; now rewrite Ha1, Ha2, Ha3, Ha4|].
  split; [exact Hs4|]. split; [exact Hl4|].
  split; [exact Hg1|].
  split; [change (goal s2 = Some script_create); rewrite Hg2; exact Hg1|].
  split; [exact Hact1|]. split; [exact Hact2|].
  split; [exact Hn1|]. split; [reflexivity|].
  rewrite Hh4. reflexivity.
Qed.

(** ** Session ids *)

Lemma u_inj (a b : string) : u a = u b -> a = b.
Proof.
  unfold u. intros H.
  rewrite <- (string_of_list_ascii_of_string a), <- (string_of_list_ascii_of_string b).
  f_equal. revert H. generalize (list_ascii_of_string a) (list_ascii_of_string b).
  intros l. induction l as [|x l IH]; intros [|y l']; cbn; try discriminate;
    [reflexivity|].
  intros [= Hxy Hl]. f_equal; [|now apply IH].
  now rewrite <- (ascii_N_embedding x), <- (ascii_N_embedding y), Hxy.
Qed.

(** [String(n)] determines [n]. *)
Lemma String_of_Z_inj (a b : Z) : String_of_Z a = String_of_Z b -> a = b.
Proof.
  unfold String_of_Z. intros H. apply u_inj in H.
  apply DecimalZ.to_int_inj.
  apply (f_equal NilEmpty.int_of_string) in H.
  rewrite !NilEmpty.isi in H. now injection H.
Qed.

(** X20.  The id of a session is the decimal form of the clock reading
    taken when it was built, so two sessions, each built by [createPlan] or
    [revisePlan], have the same id exactly when these readings were equal:
    sessions built at different milliseconds have different ids, and
    sessions built in the same millisecond share one. *)
Theorem session_ids_follow_the_clock :
  forall (build build' : UserState -> jsstring -> Env -> Outcome)
         (state state' : UserState) (message message' : jsstring) (env env' : Env),
    (build = createPlan \/ build = revisePlan) ->
    (build' = createPlan \/ build' = revisePlan) ->
    exists s s',
      lastSession (newState (build state message env)) = Some s
      /\ lastSession (newState (build' state' message' env')) = Some s'
      /\ (id s = id s' <-> Date_now env 0 = Date_now env' 0).
Proof.
  intros build build' state state' message message' env env' Hb Hb'.
  assert (H : forall b st m (e : Env), b = createPlan \/ b = revisePlan ->
                exists s, lastSession (newState (b st m e)) = Some s
                          /\ id s = Some (String_of_Z (Date_now e 0))).
  { intros b st m e [->| ->]; eexists; split; reflexivity. }
  destruct (H build state message env Hb) as (s & Hs & Hid).
  destruct (H build' state' message' env' Hb') as (s' & Hs' & Hid').
  exists s, s'. split; [exact Hs|]. split; [exact Hs'|].
  rewrite Hid, Hid'. split.
  - intros [= E]. now apply String_of_Z_inj.
  - now intros ->.
Qed.

Lemma session_ids_follow_the_clock_witness :
  exists s s',
    lastSession (newState (createPlan defaults (u "plan my week") (env_of ∅ silent)))
    = Some s
    /\ lastSession (newState (revisePlan planned_state (u "shorter")
                                (env_of after_first_plan silent)))
       = Some s'
    /\ (id s = id s'
        <-> Date_now (env_of ∅ silent) 0 = Date_now (env_of after_first_plan silent) 0).
Proof.
  apply session_ids_follow_the_clock; [left | right]; reflexivity.
Defined.

(** ** The history shown to the model *)

Lemma join_app (sep : jsstring) (a b : list jsstring) :
  a <> [] -> b <> [] -> join sep (a ++ b) = join sep a ++ sep ++ join sep b.
Proof.
  intros Ha Hb. induction a as [|x a IH]; [contradiction|].
  destruct a as [|y a].
  - cbn [app]. destruct b; [contradiction|]. reflexivity.
  - cbn [app join] in *. rewrite IH by discriminate. now rewrite <- !app_assoc.
Qed.

(** X21.  [formatHistory] puts the turns on lines of their own, in order:
    the text for a history made of two non-empty parts is the text of the
    first part, a line feed, and the text of the second part; the text of
    one turn is its label ("User" for the user, "Assistant" for any other
    role), a colon and a space, and its content; and the empty history
    gives the empty string. *)
Theorem formatHistory_lines :
  formatHistory [] = []
  /\ (forall turn, formatHistory [turn] = history_line turn)
  /\ (forall earlier later : list Turn,
         earlier <> [] -> later <> [] ->
         formatHistory (earlier ++ later)
         = formatHistory earlier ++ [10] ++ formatHistory later).
Proof.
  split; [reflexivity|]. split; [reflexivity|].
  intros earlier later He Hl.
  assert (Hf : forall h : list Turn, h <> [] ->
                 formatHistory h = join [10] (map history_line h))
    by (intros [|t h] Hh; [contradiction | reflexivity]).
  rewrite (Hf earlier He), (Hf later Hl), (Hf (earlier ++ later))
    by (destruct earlier; [contradiction|discriminate]).
  rewrite map_app. apply join_app.
  - destruct earlier; [contradiction|discriminate].
  - destruct later; [contradiction|discriminate].
Qed.

Lemma formatHistory_lines_witness :
  formatHistory ([ {| role := user; content := u "hi" |} ]
                   ++ [ {| role := assistant; content := u "hello" |} ])
  = formatHistory [ {| role := user; content := u "hi" |} ] ++ [10]
      ++ formatHistory [ {| role := assistant; content := u "hello" |} ].
Proof.
  apply (proj2 (proj2 formatHistory_lines)); discriminate.
Defined.

(** ** Responses *)

(** X22.  An OPTIONS request is answered 204 without a body, whatever its
    path; any other request whose path is none of [/api/health],
    [/debug/state], [/debug/reset] and [/api/chat], and any request to
    [/api/chat] that is not a POST, is answered 404 "Not Found"; in both
    cases the namespace is left as it was. *)
Theorem preflight_and_unknown_routes :
  forall (JSON_stringify : list Session -> jsstring) (request : Request) (env : Env),
    (method request = "OPTIONS"%string ->
       fetch JSON_stringify request env
       = Ok ({| status := 204; body := NoBody |}, STUDY_STATE_KV env))
    /\ (method request <> "OPTIONS"%string ->
        pathname request <> "/api/health"%string ->
        pathname request <> "/debug/state"%string ->
        pathname request <> "/debug/reset"%string ->
        (pathname request = "/api/chat"%string -> method request <> "POST"%string) ->
        fetch JSON_stringify request env
        = Ok ({| status := 404; body := TextBody "Not Found" |}, STUDY_STATE_KV env)).
Proof.
  intros JSON_stringify request env. unfold fetch. split.
  - intros ->. reflexivity.
  - intros Hm Hh Hs Hr Hc.
    apply String.eqb_neq in Hm, Hh, Hs, Hr. rewrite Hm, Hh, Hs, Hr.
    destruct (String.eqb_spec (pathname request) "/api/chat") as [E|_];
      [|reflexivity].
    specialize (Hc E). apply String.eqb_neq in Hc. now rewrite Hc.
Qed.

Lemma preflight_and_unknown_routes_witness :
  fetch count_sessions
    {| method := "OPTIONS"; pathname := "/debug/reset"; json_message := [] |}
    (env_of after_first_plan silent)
  = Ok ({| status := 204; body := NoBody |}, after_first_plan)
  /\ fetch count_sessions
       {| method := "GET"; pathname := "/api/chat"; json_message := u "plan" |}
       (env_of after_first_plan silent)
     = Ok ({| status := 404; body := TextBody "Not Found" |}, after_first_plan).
Proof.
  split.
  - now apply (proj1 (preflight_and_unknown_routes count_sessions
                        {| method := "OPTIONS"; pathname := "/debug/reset";
                           json_message := [] |}
                        (env_of after_first_plan silent))).
  - apply (proj2 (preflight_and_unknown_routes count_sessions
                    {| method := "GET"; pathname := "/api/chat";
                       json_message := u "plan" |}
                    (env_of after_first_plan silent))); discriminate.
Defined.

Lemma slice_last_keeps_tail {A} (n k : nat) (l tail : list A) :
  length tail = k -> (k <= n)%nat ->
  slice_last n (l ++ tail) = slice_last (n - k) l ++ tail.
Proof.
  intros Hk Hle. unfold slice_last. rewrite length_app, Hk.
  replace (length l + k - n)%nat with (length l - (n - k))%nat by lia.
  apply drop_app_le. lia.
Qed.

(** X23.  The exchange just made is never evicted: after a chat request,
    from any stored record, the stored history ends with the message of
    the request followed by the reply that was returned, preceded by the
    last six of the turns that were stored before. *)
Theorem latest_exchange_is_kept :
  forall (JSON_stringify : list Session -> jsstring) (message : jsstring) (env : Env),
    exists response kv,
      fetch JSON_stringify (chat message) env = Ok (response, kv)
      /\ recentHistory (load kv)
         = slice_last 6 (recentHistory (loadStudyState env userId))
             ++ [ {| role := user; content := message |};
                  {| role := assistant; content := reply_of response |} ].
Proof.
  intros JSON_stringify message env.
  destruct (fetch_chat_history JSON_stringify message env)
    as (response & kv & Hfetch & Hh).
  exists response, kv. split; [exact Hfetch|].
  rewrite Hh, loadStudyState_kv.
  apply (slice_last_keeps_tail 8 2); [reflexivity | lia].
Qed.

(** * The plan transitions, as the router dispatches them *)

Lemma text_or_generated (aiResult : option AiResult) (fallback : jsstring) :
  Spec.generated_text aiResult fallback (text_or aiResult fallback).
Proof.
  destruct aiResult as [[[| |[|c s]] [| |[|c' s']]]|]; reflexivity.
Qed.







(** C4.  Whenever the router chooses [log_outcome], [lastSession] is a
    session, and [logOutcome] returns normally, also when the log is empty;
    the reply is the generated text (the text under [result], else under
    [response], else "Logged.").  In the new state [lastSession] is the
    previous one with the message as its [outcomeNote] and nothing else
    changed; the log has the length it had: empty if it was empty, and
    otherwise the same elements with the message as the [outcomeNote] of the
    last one; [profile], [recentHistory] and [lastAnalysis] are unchanged. *)
Theorem log_outcome_when_dispatched :
  forall (state : UserState) (message : jsstring) (env : Env),
    chooseAction state message = log_outcome ->
    exists (current : Session) (outcome : Outcome),
      let aiResult :=
        AI_run env MODEL
          (chat_messages (log_outcome_prompt (plan current) message) message) 300 in
      lastSession state = Some current
      /\ logOutcome state message env = Ok outcome
      /\ Spec.generated_text aiResult (u "Logged.") (reply outcome)
      /\ reply outcome <> []
      /\ lastSession (newState outcome) = Some (set_outcomeNote message current)
      /\ lastSession (newState outcome)
         = option_map (set_outcomeNote message) (lastSession state)
      /\ outcomeNote (set_outcomeNote message current) = Val message
      /\ erase_note (set_outcomeNote message current) = erase_note current
      /\ length (sessions (newState outcome)) = length (sessions state)
      /\ (sessions state = [] -> sessions (newState outcome) = [])
      /\ (forall older final, sessions state = older ++ [final] ->
            sessions (newState outcome) = older ++ [set_outcomeNote message final])
      /\ profile (newState outcome) = profile state
      /\ recentHistory (newState outcome) = recentHistory state
      /\ lastAnalysis (newState outcome) = lastAnalysis state.
Proof.
  intros state message env Hchosen.
  destruct (chooseAction_log_outcome _ _ Hchosen) as (current & Hcur).
  destruct (logOutcome_effect state message env)
    as (outcome & Hok & Hlen & Hnil & Happ & Hlast).
  destruct (logOutcome_total state message env) as (updated & Hok' & _).
  exists current, outcome. cbv zeta.
  split; [exact Hcur|]. split; [exact Hok|].
  rewrite Hok' in Hok. injection Hok as <-.
  cbn [reply newState set_sessions profile recentHistory lastAnalysis lastSession]
    in *.
  rewrite Hcur. cbn [spread default from_option option_map].
  split; [apply text_or_generated|].
  split; [now apply text_or_nonempty|].
  split; [reflexivity|]. split; [reflexivity|]. split; [reflexivity|].
  split; [reflexivity|]. split; [exact Hlen|]. split; [exact Hnil|].
  split; [exact Happ|]. repeat split.
Qed.

(** C4 on a record stored without a log: the report is noted on the
    session, the log stays empty, the reply is produced. *)
Lemma log_outcome_when_dispatched_witness :
  exists (current : Session) (outcome : Outcome),
    lastSession legacy_state = Some current
    /\ logOutcome legacy_state (u "I am done") (env_of ∅ silent) = Ok outcome
    /\ reply outcome <> []
    /\ lastSession (newState outcome) = Some (set_outcomeNote (u "I am done") current)
    /\ sessions (newState outcome) = [].
Proof.
  destruct (log_outcome_when_dispatched legacy_state (u "I am done") (env_of ∅ silent))
    as (current & outcome & Hcur & Hok & _ & Hreply & Hlast & _ & _ & _ & _ & Hnil & _).
  - vm_compute. reflexivity.
  - exists current, outcome. split; [exact Hcur|]. split; [exact Hok|].
    split; [exact Hreply|]. split; [exact Hlast|]. now apply Hnil.
Defined.

(** C8, where the code departs from it.  A stored state has an analysis;
    a message is classified [analyze_pattern] and the model returns
    nothing.  The reply is the fallback "No data.", but the state
    transition is not made with it: [analyzePattern] puts the missing
    [result] into [lastAnalysis], so the next load finds [null] where the
    analysis was, not the fallback. *)
Theorem analyze_pattern_empty_payload_erases_analysis :
  let message := u "Analyze my study habits so far." in
  let env := env_of analysed_store silent in
  let state := loadStudyState env userId in
  exists response kv,
    fetch count_sessions (chat message) env = Ok (response, kv)
    /\ body response = ChatBody (Spec.fallback analyze_pattern) analyze_pattern
    /\ (forall model messages max_tokens,
          Spec.absent_or_empty (AI_run env model messages max_tokens))
    /\ lastAnalysis state = Val (u "You study late.")
    /\ lastAnalysis (newState (analyzePattern count_sessions state message env))
       = Undefined
    /\ lastAnalysis (load kv) = Null
    /\ lastAnalysis (load kv) <> Val (Spec.fallback analyze_pattern).
Proof.
  cbv zeta.
  destruct (fetch_chat count_sessions (u "Analyze my study habits so far.")
              (env_of analysed_store silent)) as (outcome & Hrun & Hfetch).
  assert (E : chooseAction (loadStudyState (env_of analysed_store silent) userId)
                (u "Analyze my study habits so far.") = analyze_pattern)
    by (vm_compute; reflexivity).
  rewrite E in Hrun, Hfetch. cbn [run_action] in Hrun. injection Hrun as <-.
  eexists. eexists. split; [exact Hfetch|].
  split; [reflexivity|]. split; [intros; exact I|].
  split; [vm_compute; reflexivity|]. split; [reflexivity|].
  rewrite load_after_save.
  split; [reflexivity | discriminate].
Qed.
